(** * Verification of the GitLab merge-request reviewer

    A shallow embedding of [src/code_review_gitlab.py]: the remote
    change-set client ([fetch_mr_changes], [fetch_raw_file]), the context
    assembler ([load_merge_request_data]), the context formatter
    ([format_documents_for_context]), the verdict extractor
    ([parse_markdown_response]) and the orchestrator ([run_mr_review]).

    Python [str] values are sequences of Unicode code points, so a string
    is a [list N].  The library functions the program calls ([str.upper],
    [str.strip], [str.replace], [str.join], [str.endswith], the [in]
    operator on strings, [re.search], [urllib.parse.quote]) are embedded
    next to the program's own functions. *)

From Stdlib Require Import List NArith ZArith Bool Lia String Ascii.
From Stdlib Require Import DecimalString.
Import ListNotations.

(** ** Python strings *)

Module PyStr.

Definition cp := N.
Definition str := list cp.

(** An ASCII literal of the source text. *)
Definition lit (s : string) : str := map N_of_ascii (list_ascii_of_string s).

(** The line feed ["\n"]. *)
Definition nl : str := [10%N].

Fixpoint eqb (a b : str) : bool :=
  match a, b with
  | [], [] => true
  | x :: a', y :: b' => N.eqb x y && eqb a' b'
  | _, _ => false
  end.

(** [s.startswith(p)] *)
Fixpoint startswith (p s : str) : bool :=
  match p, s with
  | [], _ => true
  | x :: p', y :: s' => N.eqb x y && startswith p' s'
  | _ :: _, [] => false
  end.

(** [s.endswith(suffix)]: the tail of [s] of the suffix's length is compared
    with the suffix. *)
Definition endswith (s suffix : str) : bool :=
  (List.length suffix <=? List.length s)%nat &&
  eqb (skipn (List.length s - List.length suffix) s) suffix.

(** [sub in s] *)
Fixpoint contains (sub s : str) : bool :=
  startswith sub s ||
  match s with
  | [] => false
  | _ :: s' => contains sub s'
  end.

(** [s.replace(old, new)]: every occurrence of [old], found left to right
    without overlap, is replaced.  [skip] counts the characters of an
    occurrence already replaced that are still to be passed over.  With an
    empty [old], [new] is inserted before every character and at the end. *)
Fixpoint replace_from (old new s : str) (skip : nat) : str :=
  match s with
  | [] => []
  | c :: s' =>
      match skip with
      | S k => replace_from old new s' k
      | O =>
          if startswith old s
          then new ++ replace_from old new s' (List.length old - 1)
          else c :: replace_from old new s' 0
      end
  end.

Definition replace (s old new : str) : str :=
  match old with
  | [] => new ++ flat_map (fun c => c :: new) s
  | _ :: _ => replace_from old new s 0
  end.

(** [sep.join(items)] *)
Definition join (sep : str) (items : list str) : str :=
  match items with
  | [] => []
  | x :: rest => x ++ flat_map (fun y => sep ++ y) rest
  end.

(** White space of [str.isspace], [str.strip] and of [\s] in a [str]
    pattern: the code points of bidirectional type WS, B or S and of
    category Zs. *)
Definition isspace (c : cp) : bool :=
  ((0x09 <=? c) && (c <=? 0x0D) || (0x1C <=? c) && (c <=? 0x20) ||
   (c =? 0x85) || (c =? 0xA0) || (c =? 0x1680) ||
   (0x2000 <=? c) && (c <=? 0x200A) ||
   (c =? 0x2028) || (c =? 0x2029) || (c =? 0x202F) || (c =? 0x205F) ||
   (c =? 0x3000))%N.

Fixpoint lstrip_by (p : cp -> bool) (s : str) : str :=
  match s with
  | [] => []
  | c :: s' => if p c then lstrip_by p s' else s
  end.

Definition rstrip_by (p : cp -> bool) (s : str) : str :=
  rev (lstrip_by p (rev s)).

(** [s.strip()] *)
Definition strip (s : str) : str := rstrip_by isspace (lstrip_by isspace s).

(** [s.rstrip(chars)] *)
Definition rstrip (s chars : str) : str :=
  rstrip_by (fun c => existsb (N.eqb c) chars) s.

Definition is_ascii_lower (c : cp) : bool := ((0x61 <=? c) && (c <=? 0x7A))%N.
Definition is_ascii_upper (c : cp) : bool := ((0x41 <=? c) && (c <=? 0x5A))%N.
Definition ascii_toupper (c : cp) : cp := if is_ascii_lower c then (c - 32)%N else c.
Definition ascii_tolower (c : cp) : cp := if is_ascii_upper c then (c + 32)%N else c.

(** [str(n)] for an [int]. *)
Definition of_int (n : Z) : str := lit (NilZero.string_of_int (Z.to_int n)).

(** [str(n)] for a length. *)
Definition of_nat (n : nat) : str := of_int (Z.of_nat n).

Section Upper.

(** The full upper-case mapping of the Unicode database for the code
    points beyond ASCII (one to three code points each).  Nothing is
    assumed of it. *)
Variable ucd_upper : cp -> str.

Definition toupper_full (c : cp) : str :=
  if (c <? 0x80)%N then [ascii_toupper c] else ucd_upper c.

(** [s.upper()] *)
Definition upper (s : str) : str := flat_map toupper_full s.

End Upper.

End PyStr.

Import PyStr.

(** ** Regular expressions, as [re.search] evaluates them *)

Module Re.

(** One-character items of a pattern. *)
Inductive atom :=
| Lit (c : cp)   (* a literal character *)
| Space.         (* \s *)

Inductive regex :=
| Eps
| Atom (a : atom)
| Star (a : atom)            (* a*, greedy *)
| Seq (r1 r2 : regex)
| Alt (r1 r2 : regex).

(** A literal under [re.IGNORECASE] in a [str] pattern accepts the
    characters whose simple lower case is the lower case of the literal or
    one of its "ignore-case fixes".  For an ASCII letter these are its two
    cases and, for i, s and k, the four letters U+0130, U+0131, U+017F and
    U+212A.  A character without case accepts itself only. *)
Definition ignorecase_extra (lo x : cp) : bool :=
  ((lo =? 0x69) && ((x =? 0x130) || (x =? 0x131)) ||
   (lo =? 0x73) && (x =? 0x17F) ||
   (lo =? 0x6B) && (x =? 0x212A))%N.

Definition lit_ignorecase (p x : cp) : bool :=
  if is_ascii_lower p || is_ascii_upper p
  then N.eqb x (ascii_tolower p) || N.eqb x (ascii_toupper p) ||
       ignorecase_extra (ascii_tolower p) x
  else N.eqb x p.

Definition accepts (a : atom) (x : cp) : bool :=
  match a with
  | Lit p => lit_ignorecase p x
  | Space => isspace x
  end.

(** The ways [a*] can match at the start of [s], the longest first. *)
Fixpoint star_matches (a : atom) (s : str) : list (str * str) :=
  match s with
  | c :: s' =>
      if accepts a c
      then map (fun mr => (c :: fst mr, snd mr)) (star_matches a s') ++ [([], s)]
      else [([], s)]
  | [] => [([], [])]
  end.

(** The ways [r] can match at the start of [s], as (matched text, rest), in
    the order the backtracking matcher tries them. *)
Fixpoint matches (r : regex) (s : str) : list (str * str) :=
  match r with
  | Eps => [([], s)]
  | Atom a =>
      match s with
      | c :: s' => if accepts a c then [([c], s')] else []
      | [] => []
      end
  | Star a => star_matches a s
  | Seq r1 r2 =>
      flat_map (fun m1 =>
                  map (fun m2 => (fst m1 ++ fst m2, snd m2))
                      (matches r2 (snd m1)))
               (matches r1 s)
  | Alt r1 r2 => matches r1 s ++ matches r2 s
  end.

Definition literal (s : str) : regex :=
  fold_right (fun c r => Seq (Atom (Lit c)) r) Eps s.

(** The match object: [group(0)] and [group(1)]. *)
Record re_match := { group0 : str; group1 : str }.

(** A pattern [head(group)] with one capturing group at its end, tried at
    the start of [s]. *)
Definition match_at (head group : regex) (s : str) : option re_match :=
  hd_error
    (flat_map (fun m1 =>
                 map (fun m2 => {| group0 := fst m1 ++ fst m2; group1 := fst m2 |})
                     (matches group (snd m1)))
              (matches head s)).

(** [re.search]: the first start position, from the left, with a match. *)
Fixpoint search (head group : regex) (s : str) : option re_match :=
  match match_at head group s with
  | Some m => Some m
  | None =>
      match s with
      | [] => None
      | _ :: s' => search head group s'
      end
  end.

(** The language of a pattern. *)
Inductive lang : regex -> str -> Prop :=
| lang_eps : lang Eps []
| lang_atom a c : accepts a c = true -> lang (Atom a) [c]
| lang_star_nil a : lang (Star a) []
| lang_star_cons a c m : accepts a c = true -> lang (Star a) m -> lang (Star a) (c :: m)
| lang_seq r1 r2 m1 m2 : lang r1 m1 -> lang r2 m2 -> lang (Seq r1 r2) (m1 ++ m2)
| lang_alt_l r1 r2 m : lang r1 m -> lang (Alt r1 r2) m
| lang_alt_r r1 r2 m : lang r2 m -> lang (Alt r1 r2) m.

End Re.

(** ** The verdict extractor *)

Record AIMessage := { content : str }.

Record ReviewOutcome := { is_ok : bool; report : str }.

(** [r"FINAL_STATUS:\s*(PASSED|FAILED)"] *)
Definition marker_head : Re.regex :=
  Re.Seq (Re.literal (lit "FINAL_STATUS:")) (Re.Star Re.Space).

Definition marker_group : Re.regex :=
  Re.Alt (Re.literal (lit "PASSED")) (Re.literal (lit "FAILED")).

Section Extractor.

Variable ucd_upper : cp -> str.

Definition parse_markdown_response (ai_message : AIMessage) : ReviewOutcome :=
  let text := content ai_message in
  match Re.search marker_head marker_group text with
  | Some m =>
      let status_str := upper ucd_upper (Re.group1 m) in
      let is_ok := eqb status_str (lit "PASSED") in
      let report_content := strip (replace text (Re.group0 m) []) in
      {| is_ok := is_ok; report := report_content |}
  | None =>
      let is_ok :=
        if contains (lit "CRITICAL BUG") (upper ucd_upper text) ||
           contains (lit "SECURITY VULNERABILITY") (upper ucd_upper text)
        then false else true in
      {| is_ok := is_ok; report := text |}
  end.

End Extractor.

(** ** [urllib.parse.quote] *)

Module Urllib.

(** UTF-8, [errors='strict']: a surrogate code point cannot be encoded. *)
Definition utf8_encode_cp (c : cp) : option (list N) :=
  (if c <? 0x80 then Some [c]
   else if c <? 0x800 then Some [0xC0 + c / 64; 0x80 + c mod 64]
   else if (0xD800 <=? c) && (c <=? 0xDFFF) then None
   else if c <? 0x10000
        then Some [0xE0 + c / 4096; 0x80 + (c / 64) mod 64; 0x80 + c mod 64]
        else Some [0xF0 + c / 262144; 0x80 + (c / 4096) mod 64;
                   0x80 + (c / 64) mod 64; 0x80 + c mod 64])%N.

Fixpoint utf8_encode (s : str) : option (list N) :=
  match s with
  | [] => Some []
  | c :: s' =>
      match utf8_encode_cp c, utf8_encode s' with
      | Some b, Some bs => Some (b ++ bs)
      | _, _ => None
      end
  end.

(** The bytes never quoted: letters, digits and [_.-~]. *)
Definition always_safe (b : N) : bool :=
  (is_ascii_upper b || is_ascii_lower b || (0x30 <=? b) && (b <=? 0x39) ||
   (b =? 0x5F) || (b =? 0x2E) || (b =? 0x2D) || (b =? 0x7E))%N.

Definition hex_digit (d : N) : cp := (if d <? 10 then 0x30 + d else 0x37 + d)%N.

Definition quote_byte (b : N) : str :=
  if always_safe b then [b] else [0x25%N; hex_digit (b / 16); hex_digit (b mod 16)].

(** [quote(s, safe='')]: the UTF-8 bytes of [s], each one kept when it is
    never quoted and written as a percent sign and two upper-case hexadecimal
    digits otherwise. *)
Definition quote (s : str) : option str :=
  option_map (flat_map quote_byte) (utf8_encode s).

End Urllib.

(** ** The world the program runs in *)

(** The payload of the merge-request endpoint, as the program reads it:
    [mr_data.get('source_branch')], [mr_data.get('changes', [])] and, of each
    change, the keys [new_path], [deleted_file] and [diff]. *)
Record Change := { new_path : str; deleted_file : bool; diff : str }.

Record MRData := { source_branch : option str; changes_field : option (list Change) }.

Record Response := {
  status_code : Z;
  text : str;
  json : option MRData   (* [None]: the body does not decode *)
}.

Inductive exn :=
| Exception (msg : str)
| UnicodeEncodeError
| RequestException
| JSONDecodeError.

Inductive http_reply :=
| Replied (r : Response)
| Failed.                (* no response: [requests.get] raises *)

(** What the program does to the outside, in the order it does it. *)
Inductive event :=
| Print (line : str)
| HttpGet (url : str) (private_token : str)
| ModelInvoke (context : str)
| FileWrite (path : str) (data : str).

(** The remote platform and the model may answer differently as the run
    goes on: both see the events so far.  Credential set-up, the choice of
    the back end and the prompt wording are outside the model: the token is
    the one in place after [setup_environment], and [chain_invoke] is the
    chain [prompt_template | llm] applied to the context, giving the reply
    text or the message of the exception it raised. *)
Record World := {
  private_token : str;
  http : list event -> str -> str -> http_reply;
  chain_invoke : list event -> str -> str + str
}.

Inductive result (A : Type) :=
| Ok (a : A)
| Raise (e : exn).
Arguments Ok {A} a.
Arguments Raise {A} e.

Definition M (A : Type) : Type := list event -> result A * list event.

Definition ret {A} (a : A) : M A := fun tr => (Ok a, tr).

Definition raise {A} (e : exn) : M A := fun tr => (Raise e, tr).

Definition bind {A B} (m : M A) (k : A -> M B) : M B :=
  fun tr =>
    match m tr with
    | (Ok a, tr') => k a tr'
    | (Raise e, tr') => (Raise e, tr')
    end.

Definition emit (e : event) : M unit := fun tr => (Ok tt, tr ++ [e]).

Definition print (line : str) : M unit := emit (Print line).

Notation "x <- c1 ;; c2" := (bind c1 (fun x => c2))
  (at level 61, c1 at next level, right associativity).
Notation "c1 ;; c2" := (bind c1 (fun _ => c2))
  (at level 61, right associativity).

(** [f"{x}"] of a value that may be [None]. *)
Definition format_opt (x : option str) : str :=
  match x with
  | Some s => s
  | None => lit "None"
  end.

Record Document := { page_content : str; metadata_source : str }.

Record Args := { gitlab_url : str; project_id : str; mr_id : str }.

Section Program.

Variable w : World.

(** [requests.get(url, headers=get_gitlab_headers())] *)
Definition requests_get (url : str) : M Response :=
  fun tr =>
    match http w tr url (private_token w) with
    | Replied r => (Ok r, tr ++ [HttpGet url (private_token w)])
    | Failed => (Raise RequestException, tr ++ [HttpGet url (private_token w)])
    end.

Definition quote (s : str) : M str :=
  match Urllib.quote s with
  | Some q => ret q
  | None => raise UnicodeEncodeError
  end.

Definition fetch_mr_changes (gitlab_url project_id mr_iid : str) : M MRData :=
  safe_id <- quote project_id ;;
  let base_url := rstrip gitlab_url (lit "/") in
  let url := base_url ++ lit "/api/v4/projects/" ++ safe_id ++
             lit "/merge_requests/" ++ mr_iid ++ lit "/changes" in
  print ([0x1F4E1%N] ++ lit " Fetching MR metadata from: " ++ url) ;;
  response <- requests_get url ;;
  if negb (status_code response =? 200)%Z
  then raise (Exception (lit "Failed to fetch MR: " ++ of_int (status_code response) ++
                         lit " - " ++ text response))
  else match json response with
       | Some d => ret d
       | None => raise JSONDecodeError
       end.

Definition fetch_raw_file (gitlab_url project_id file_path ref : str) : M str :=
  safe_id <- quote project_id ;;
  safe_path <- quote file_path ;;
  let base_url := rstrip gitlab_url (lit "/") in
  let url := base_url ++ lit "/api/v4/projects/" ++ safe_id ++
             lit "/repository/files/" ++ safe_path ++ lit "/raw?ref=" ++ ref in
  response <- requests_get url ;;
  if negb (status_code response =? 200)%Z
  then ret (lit "[Error fetching file content: " ++ of_int (status_code response) ++ lit "]")
  else ret (text response).

(** [file_filter and not any(file_path.endswith(ext) for ext in file_filter)] *)
Definition filtered_out (file_filter : option (list str)) (file_path : str) : bool :=
  match file_filter with
  | None | Some [] => false
  | Some exts => negb (existsb (endswith file_path) exts)
  end.

Definition combined_content (file_path diff_content full_content : str) : str :=
  lit "FILENAME: " ++ file_path ++ nl ++
  lit "--- BEGIN DIFF (CHANGES) ---" ++ nl ++ diff_content ++ nl ++
  lit "--- END DIFF ---" ++ nl ++ nl ++
  lit "--- BEGIN FULL FILE CONTENT (CONTEXT) ---" ++ nl ++ full_content ++ nl ++
  lit "--- END FULL FILE CONTENT ---" ++ nl.

(** The loop [for change in changes] with its accumulator [docs]. *)
Fixpoint load_changes (gitlab_url project_id : str) (source_branch : option str)
         (file_filter : option (list str)) (changes : list Change)
         (docs : list Document) : M (list Document) :=
  match changes with
  | [] => ret docs
  | change :: rest =>
      let file_path := new_path change in
      if filtered_out file_filter file_path
      then load_changes gitlab_url project_id source_branch file_filter rest docs
      else if deleted_file change
      then load_changes gitlab_url project_id source_branch file_filter rest docs
      else
        print (lit "   " ++ [0x2B07%N; 0xFE0F%N] ++ lit "  Loading: " ++ file_path) ;;
        let diff_content := diff change in
        full_content <- fetch_raw_file gitlab_url project_id file_path
                                       (format_opt source_branch) ;;
        let doc := {| page_content := combined_content file_path diff_content full_content;
                      metadata_source := file_path |} in
        load_changes gitlab_url project_id source_branch file_filter rest (docs ++ [doc])
  end.

Definition load_merge_request_data (gitlab_url project_id mr_id : str)
           (file_filter : option (list str)) : M (list Document) :=
  mr_data <- fetch_mr_changes gitlab_url project_id mr_id ;;
  let source_branch := source_branch mr_data in
  let changes := match changes_field mr_data with Some l => l | None => [] end in
  print ([0x2705%N] ++ lit " Found " ++ of_nat (List.length changes) ++
         lit " changed files in MR !" ++ mr_id) ;;
  load_changes gitlab_url project_id source_branch file_filter changes [].

Definition format_documents_for_context (docs : list Document) : str :=
  join nl (map page_content docs).

Definition target_extensions : list str :=
  [lit ".py"; lit ".js"; lit ".ts"; lit ".jsx"; lit ".tsx"; lit ".go"; lit ".java"; lit ".cpp"].

Section Orchestrator.

Variable ucd_upper : cp -> str.

(** [chain.invoke({"context": mr_context})]: the model, then
    [parse_markdown_response] on its reply. *)
Definition invoke_chain (mr_context : str) : M (str + ReviewOutcome) :=
  fun tr =>
    (Ok match chain_invoke w tr mr_context with
        | inl e => inl e
        | inr reply => inr (parse_markdown_response ucd_upper {| content := reply |})
        end,
     tr ++ [ModelInvoke mr_context]).

(** The run, from its first line on the console.  [setup_environment] and
    [get_llm], called before it, and the prompt belong to the outside (see
    [World]).  The [try] block covers the chain: an exception it raises is
    printed, and nothing is written. *)
Definition run_mr_review (args : Args) : M unit :=
  print ([0x1F680%N] ++ lit " Starting Review for MR !" ++ mr_id args ++
         lit " in project " ++ project_id args) ;;
  documents <- load_merge_request_data (gitlab_url args) (project_id args) (mr_id args)
                                       (Some target_extensions) ;;
  match documents with
  | [] => print ([0x274C%N] ++ lit " No matching files found in this MR.")
  | _ :: _ =>
      let mr_context := format_documents_for_context documents in
      print ([0x1F4CA%N] ++ lit " Context size: ~" ++
             of_nat (List.length mr_context / 4) ++ lit " tokens") ;;
      print ([0x1F9E0%N] ++ lit " Analyzing MR changes...") ;;
      outcome <- invoke_chain mr_context ;;
      match outcome with
      | inr result =>
          print (nl ++ [0x1F4E2%N] ++ lit " MR Review Status: " ++
                 (if is_ok result then [0x2705%N] ++ lit " PASSED"
                  else [0x274C%N] ++ lit " FAILED")) ;;
          print (nl ++ repeat 0x3D%N 30 ++ lit " REPORT " ++ repeat 0x3D%N 30 ++ nl) ;;
          print (report result) ;;
          emit (FileWrite (lit "mr_review_report.md") (report result))
      | inl e => print ([0x274C%N] ++ lit " Error during analysis: " ++ e)
      end
  end.

End Orchestrator.

End Program.

(** * Vocabulary of the specification *)

(** [sub] occurs in [s]. *)
Definition substring (sub s : str) : Prop := exists a b, s = a ++ sub ++ b.

(** [x] is [p] up to letter case, as the pattern compares letters. *)
Definition ci_eq (p x : str) : Prop :=
  Forall2 (fun c y => Re.lit_ignorecase c y = true) p x.

Definition all_space (ws : str) : Prop := Forall (fun c => isspace c = true) ws.

(** [m] is a status marker with status word [w]: the text FINAL_STATUS:,
    any white space, then PASSED or FAILED, in any letter case. *)
Definition Marker (m w : str) : Prop :=
  exists kw ws,
    m = kw ++ ws ++ w /\ ci_eq (lit "FINAL_STATUS:") kw /\ all_space ws /\
    (ci_eq (lit "PASSED") w \/ ci_eq (lit "FAILED") w).

Definition has_marker (text : str) : Prop :=
  exists pre m w post, text = pre ++ m ++ post /\ Marker m w.

(** The marker [m] at offset [length pre] is the earliest in [text]. *)
Definition first_marker (text pre m w post : str) : Prop :=
  text = pre ++ m ++ post /\ Marker m w /\
  forall pre' m' w' post',
    text = pre' ++ m' ++ post' -> Marker m' w' ->
    (List.length pre <= List.length pre')%nat.

(** A change is retained when it is not marked deleted and, when a filter
    with at least one suffix is given, its new path ends with one of them. *)
Definition Retained (file_filter : option (list str)) (c : Change) : Prop :=
  deleted_file c = false /\
  match file_filter with
  | Some (e :: exts) => exists ext a, In ext (e :: exts) /\ new_path c = a ++ ext
  | _ => True
  end.

Definition retained (file_filter : option (list str)) (c : Change) : bool :=
  negb (deleted_file c) &&
  match file_filter with
  | Some (e :: exts) => existsb (endswith (new_path c)) (e :: exts)
  | _ => true
  end.

(** The change list of the payload, [mr_data.get('changes', [])]. *)
Definition changes_of (d : MRData) : list Change :=
  match changes_field d with
  | Some l => l
  | None => []
  end.

(** The two endpoints, for a base URL and quoted path segments. *)
Definition changes_url (gitlab_url safe_id mr_iid : str) : str :=
  rstrip gitlab_url (lit "/") ++ lit "/api/v4/projects/" ++ safe_id ++
  lit "/merge_requests/" ++ mr_iid ++ lit "/changes".

Definition raw_file_url (gitlab_url safe_id safe_path ref : str) : str :=
  rstrip gitlab_url (lit "/") ++ lit "/api/v4/projects/" ++ safe_id ++
  lit "/repository/files/" ++ safe_path ++ lit "/raw?ref=" ++ ref.

(** The placeholder for a file whose content could not be fetched. *)
Definition sentinel (status : Z) : str :=
  lit "[Error fetching file content: " ++ of_int status ++ lit "]".

(** What [fetch_raw_file] makes of a response. *)
Definition content_of (r : Response) : str :=
  if (status_code r =? 200)%Z then text r else sentinel (status_code r).

(** The three parts of a unit body. *)
Definition header_line (path : str) : str := lit "FILENAME: " ++ path ++ nl.

Definition diff_section (d : str) : str :=
  lit "--- BEGIN DIFF (CHANGES) ---" ++ nl ++ d ++ nl ++ lit "--- END DIFF ---" ++ nl.

Definition content_section (full : str) : str :=
  lit "--- BEGIN FULL FILE CONTENT (CONTEXT) ---" ++ nl ++ full ++ nl ++
  lit "--- END FULL FILE CONTENT ---" ++ nl.

(** The unit [d] is the one assembled for the change [c]: it carries the
    new path, and its body is the header, the diff section, an empty line
    and the section of the content made of some response [r] of the platform
    to the raw-file request for that path. *)
Definition unit_of (w : World) (gitlab_url safe_id : str) (branch : option str)
           (c : Change) (d : Document) : Prop :=
  metadata_source d = new_path c /\
  exists safe_path tr0 r,
    Urllib.quote (new_path c) = Some safe_path /\
    http w tr0 (raw_file_url gitlab_url safe_id safe_path (format_opt branch))
         (private_token w) = Replied r /\
    page_content d =
    header_line (new_path c) ++ diff_section (diff c) ++ nl ++
    content_section (content_of r).

(** Bodies put one after the other with one line feed between neighbours. *)
Fixpoint newline_separated (bodies : list str) : str :=
  match bodies with
  | [] => []
  | [b] => b
  | b :: rest => b ++ nl ++ newline_separated rest
  end.

(** The platform answers every request. *)
Definition responsive (w : World) : Prop :=
  forall tr url token, http w tr url token <> Failed.

(** No surrogate code point: the text has a UTF-8 encoding. *)
Definition encodable (s : str) : Prop :=
  Forall (fun c => (c <? 0xD800)%N || (0xDFFF <? c)%N = true) s.

(** Events of the client: console lines and requests. *)
Definition client_event (e : event) : Prop :=
  match e with
  | Print _ | HttpGet _ _ => True
  | ModelInvoke _ | FileWrite _ _ => False
  end.

(** The program [m] only adds events of the kind [P] to the trace. *)
Definition only_emits (P : event -> Prop) {A} (m : M A) : Prop :=
  forall tr, exists evs, snd (m tr) = tr ++ evs /\ Forall P evs.

(** The first console lines of a run. *)
Definition starting_line (args : Args) : str :=
  [0x1F680%N] ++ lit " Starting Review for MR !" ++ mr_id args ++
  lit " in project " ++ project_id args.

Definition fetching_line (url : str) : str :=
  [0x1F4E1%N] ++ lit " Fetching MR metadata from: " ++ url.

Definition no_matching_files_line : str :=
  [0x274C%N] ++ lit " No matching files found in this MR.".

(** ** A sample run *)

Definition sample_changes : list Change :=
  [ {| new_path := lit "src/app.py"; deleted_file := false; diff := lit "@@ -1 +1 @@" |};
    {| new_path := lit "README.md"; deleted_file := false; diff := lit "@@ -2 +2 @@" |};
    {| new_path := lit "old/gone.py"; deleted_file := true; diff := [] |};
    {| new_path := lit "web/main.js"; deleted_file := false; diff := [] |} ].

Definition sample_data (changes : list Change) : MRData :=
  {| source_branch := Some (lit "feature"); changes_field := Some changes |}.

(** A platform that answers the merge-request endpoint with [meta_status]
    and [changes], and every raw-file request with [raw_status]; the model
    approves. *)
Definition sample_world (meta_status : Z) (changes : list Change) (raw_status : Z) : World :=
  {| private_token := lit "glpat-secret";
     http := fun _ url _ =>
       if endswith url (lit "/changes")
       then Replied {| status_code := meta_status; text := lit "{}";
                       json := Some (sample_data changes) |}
       else Replied {| status_code := raw_status; text := lit "print(1)"; json := None |};
     chain_invoke := fun _ _ => inr (lit "Looks fine." ++ nl ++ lit "FINAL_STATUS: PASSED") |}.

Definition sample_args : Args :=
  {| gitlab_url := lit "https://gitlab.example.com/"; project_id := lit "team/app";
     mr_id := lit "42" |}.

(** ** Credentials *)

Module Credentials.

(** [os.environ], as the variables it holds. *)
Definition Env := str -> option str.

(** [os.environ[k] = v] *)
Definition env_set (env : Env) (k v : str) : Env :=
  fun k' => if eqb k' k then Some v else env k'.

(** [not os.environ.get(k)]: the variable is unset or empty. *)
Definition env_missing (env : Env) (k : str) : bool :=
  match env k with
  | None | Some [] => true
  | Some (_ :: _) => false
  end.

(** What [setup_environment] does at the terminal. *)
Inductive console_event :=
| Printed (line : str)
| Prompted (prompt : str).     (* [getpass.getpass(prompt)] *)

(** [getpass] gives the text typed at a prompt. *)
Definition setup_environment (getpass : str -> str) (use_local : bool) (env : Env)
  : Env * list console_event :=
  let '(env1, ev1) :=
    if negb use_local
    then if env_missing env (lit "GOOGLE_API_KEY")
         then (env_set env (lit "GOOGLE_API_KEY") (getpass (lit "Enter Google AI API Key: ")),
               [Printed ([0x1F511%N] ++ lit " Google API Key not found.");
                Prompted (lit "Enter Google AI API Key: ")])
         else (env, [])
    else (env, []) in
  if env_missing env1 (lit "GITLAB_PRIVATE_TOKEN")
  then (env_set env1 (lit "GITLAB_PRIVATE_TOKEN") (getpass (lit "Enter GitLab Private Token: ")),
        ev1 ++
        [Printed ([0x1F512%N] ++
                  lit " GitLab Private Token not found (Scope required: read_api or read_repository).");
         Prompted (lit "Enter GitLab Private Token: ")])
  else (env1, ev1).

(** [{"PRIVATE-TOKEN": os.environ["GITLAB_PRIVATE_TOKEN"]}]; [None] stands
    for the [KeyError] of a variable that is not set. *)
Definition get_gitlab_headers (env : Env) : option (list (str * str)) :=
  match env (lit "GITLAB_PRIVATE_TOKEN") with
  | Some token => Some [(lit "PRIVATE-TOKEN", token)]
  | None => None
  end.

End Credentials.

(** ** Reading a trace *)

(** The URLs requested, in order. *)
Definition requested_urls (evs : list event) : list str :=
  flat_map (fun e => match e with HttpGet url _ => [url] | _ => [] end) evs.

(** A request carries the token of the world. *)
Definition carries_token (w : World) (e : event) : Prop :=
  match e with
  | HttpGet _ token => token = private_token w
  | _ => True
  end.

(** A valid code point. *)
Definition valid_cp (c : cp) : Prop := (c < 0x110000)%N.

(** * Properties *)

(** ** Strings *)

Module PyStrFacts.

Lemma eqb_spec (a b : str) : eqb a b = true <-> a = b.
Proof.
  revert b; induction a as [|x a IH]; intros [|y b]; simpl; split; intro H;
    try reflexivity; try discriminate.
  - apply andb_true_iff in H as [Hx Hab].
    apply N.eqb_eq in Hx. apply IH in Hab. now subst.
  - injection H as -> ->. rewrite N.eqb_refl. now apply IH.
Qed.

Lemma startswith_spec (p s : str) :
  startswith p s = true <-> exists t, s = p ++ t.
Proof.
  revert s; induction p as [|x p IH]; intros s; simpl.
  - split; [intros _; now exists s | reflexivity].
  - destruct s as [|y s].
    + split; [discriminate | intros [t Ht]; discriminate].
    + rewrite andb_true_iff, N.eqb_eq, IH. split.
      * intros [-> [t ->]]. now exists t.
      * intros [t Ht]. injection Ht as -> ->. split; [reflexivity | now exists t].
Qed.

Lemma contains_spec (sub s : str) :
  contains sub s = true <-> exists a b, s = a ++ sub ++ b.
Proof.
  induction s as [|c s IH].
  - simpl. rewrite orb_false_r, startswith_spec. split.
    + intros [t Ht]. now exists [], t.
    + intros [a [b H]]. destruct a; [now exists b | discriminate].
  - cbn [contains]. rewrite orb_true_iff, startswith_spec, IH. split.
    + intros [[t Ht] | [a [b H]]].
      * now exists [], t.
      * exists (c :: a), b. now rewrite H.
    + intros [[|x a] [b H]].
      * left. now exists b.
      * right. injection H as -> ->. now exists a, b.
Qed.

Lemma upper_app (u : cp -> str) (a b : str) :
  upper u (a ++ b) = upper u a ++ upper u b.
Proof. unfold upper. apply flat_map_app. Qed.

Lemma replace_from_skip (old new u s : str) :
  replace_from old new (u ++ s) (List.length u) = replace_from old new s 0.
Proof. induction u as [|c u IH]; simpl; [reflexivity | exact IH]. Qed.

Lemma replace_nil (old new : str) : old <> [] -> replace [] old new = [].
Proof. destruct old; [congruence | reflexivity]. Qed.

Lemma replace_occurrence (old new s : str) :
  old <> [] -> replace (old ++ s) old new = new ++ replace s old new.
Proof.
  destruct old as [|x o]; [congruence | intros _].
  unfold replace. cbn [app replace_from].
  assert (H : startswith (x :: o) (x :: o ++ s) = true)
    by (apply startswith_spec; now exists s).
  rewrite H. cbn [List.length]. rewrite Nat.sub_succ, Nat.sub_0_r.
  now rewrite replace_from_skip.
Qed.

Lemma replace_other (old new : str) (c : cp) (s : str) :
  startswith old (c :: s) = false ->
  replace (c :: s) old new = c :: replace s old new.
Proof.
  destruct old as [|x o]; [discriminate | intros H].
  unfold replace. cbn [replace_from]. now rewrite H.
Qed.

(** [replace] cuts the text at occurrences of [old] and joins the pieces
    with [new]: nothing but copies of [old] is taken out, and no piece still
    holds one. *)
Lemma replace_pieces (old new : str) :
  old <> [] ->
  forall s, exists p ps,
    s = join old (p :: ps) /\
    replace s old new = join new (p :: ps) /\
    Forall (fun q => contains old q = false) (p :: ps).
Proof.
  intros Hold s.
  remember (List.length s) as n eqn:Hn.
  revert s Hn. induction n as [n IH] using lt_wf_ind. intros s Hn.
  destruct (startswith old s) eqn:Hsw.
  - apply startswith_spec in Hsw as [t ->].
    destruct (IH (List.length t)) with (s := t) as (p & ps & Ht & Hr & Hf).
    + subst n. rewrite length_app. destruct old; [congruence | simpl; lia].
    + reflexivity.
    + exists [], (p :: ps). split; [| split].
      * rewrite Ht at 1. cbn [join flat_map app]. now rewrite app_assoc.
      * rewrite replace_occurrence by exact Hold. rewrite Hr.
        cbn [join flat_map app]. now rewrite app_assoc.
      * constructor; [| exact Hf].
        destruct old; [congruence | reflexivity].
  - destruct s as [|c t].
    + exists [], []. split; [reflexivity | split].
      * now apply replace_nil.
      * constructor; [| constructor]. simpl. now rewrite Hsw.
    + destruct (IH (List.length t)) with (s := t) as (p & ps & Ht & Hr & Hf).
      * subst n. simpl. lia.
      * reflexivity.
      * exists (c :: p), ps. split; [| split].
        -- cbn [join app]. f_equal. exact Ht.
        -- rewrite replace_other by exact Hsw. rewrite Hr. reflexivity.
        -- apply Forall_cons_iff in Hf as [Hp Hps]. constructor; [| exact Hps].
           cbn [contains]. rewrite Hp, orb_false_r.
           destruct (startswith old (c :: p)) eqn:E; [| reflexivity].
           apply startswith_spec in E as [r Hr'].
           assert (startswith old (c :: t) = true).
           { apply startswith_spec. rewrite Ht. cbn [join].
             exists (r ++ flat_map (fun y => old ++ y) ps).
             rewrite app_assoc, <- Hr'. reflexivity. }
           congruence.
Qed.

Lemma lstrip_by_spec (p : cp -> bool) (s : str) :
  exists l, s = l ++ lstrip_by p s /\ Forall (fun c => p c = true) l /\
            (forall c t, lstrip_by p s = c :: t -> p c = false).
Proof.
  induction s as [|c s (l & Hl & Hf & Hh)].
  - exists []. repeat split; [constructor | discriminate].
  - simpl. destruct (p c) eqn:E.
    + exists (c :: l). repeat split.
      * simpl. now f_equal.
      * now constructor.
      * exact Hh.
    + exists []. repeat split; [constructor |].
      intros c' t H. now injection H as <- _.
Qed.

(** [strip] takes white space, and nothing else, off both ends, until a
    character that is not white space is met. *)
Lemma strip_spec (s : str) :
  exists l r, s = l ++ strip s ++ r /\
    Forall (fun c => isspace c = true) l /\
    Forall (fun c => isspace c = true) r /\
    (forall c t, strip s = c :: t -> isspace c = false) /\
    (forall c t, strip s = t ++ [c] -> isspace c = false).
Proof.
  destruct (lstrip_by_spec isspace s) as (l & Hl & Hfl & Hhl).
  destruct (lstrip_by_spec isspace (rev (lstrip_by isspace s))) as (r & Hr & Hfr & Hhr).
  unfold strip, rstrip_by.
  set (u := lstrip_by isspace s) in *.
  set (v := lstrip_by isspace (rev u)) in *.
  assert (Hu : u = rev v ++ rev r).
  { rewrite <- rev_app_distr, <- Hr. now rewrite rev_involutive. }
  exists l, (rev r). repeat split.
  - rewrite Hl at 1. now rewrite Hu.
  - exact Hfl.
  - apply Forall_rev. exact Hfr.
  - intros c t Hv. apply (Hhl c (t ++ rev r)). rewrite Hu, Hv. reflexivity.
  - intros c t Hv. apply (Hhr c (rev t)).
    rewrite <- (rev_involutive v), Hv, rev_app_distr. reflexivity.
Qed.

End PyStrFacts.

(** ** The backtracking matcher and the language of a pattern *)

Module ReFacts.
Import Re.

Lemma star_matches_iff (a : atom) (s m rest : str) :
  In (m, rest) (star_matches a s) <-> s = m ++ rest /\ lang (Star a) m.
Proof.
  revert m rest. induction s as [|c s IH]; intros m rest.
  - simpl. split.
    + intros [H | []]. injection H as <- <-. split; [reflexivity | constructor].
    + intros [H _]. symmetry in H. apply app_eq_nil in H as [-> ->]. now left.
  - cbn [star_matches]. destruct (accepts a c) eqn:Hc.
    + rewrite in_app_iff, in_map_iff. split.
      * intros [[[m' r'] [H Hin]] | [H | []]].
        -- simpl in H. injection H as <- <-. apply IH in Hin as [-> Hl].
           split; [reflexivity | now constructor].
        -- injection H as <- <-. split; [reflexivity | constructor].
      * intros [Hs Hl]. inversion Hl as [| |? | ? c' m' Hc' Hm'| | |]; subst.
        -- right. left. simpl in Hs. now rewrite Hs.
        -- left. simpl in Hs. injection Hs as <- Hs.
           exists (m', rest). split; [reflexivity | apply IH; now split].
    + split.
      * intros [H | []]. injection H as <- <-. split; [reflexivity | constructor].
      * intros [Hs Hl]. inversion Hl as [| |? | ? c' m' Hc' Hm'| | |]; subst.
        -- left. simpl in Hs. now rewrite Hs.
        -- simpl in Hs. injection Hs as <- _. congruence.
Qed.

(** The matcher enumerates exactly the prefixes in the pattern's language. *)
Lemma matches_iff (r : regex) (s m rest : str) :
  In (m, rest) (matches r s) <-> s = m ++ rest /\ lang r m.
Proof.
  revert s m rest.
  induction r as [| a | a | r1 IH1 r2 IH2 | r1 IH1 r2 IH2]; intros s m rest.
  - simpl. split.
    + intros [H | []]. injection H as <- <-. split; [reflexivity | constructor].
    + intros [-> Hl]. inversion Hl; subst. now left.
  - simpl. destruct s as [|c s].
    + split; [intros [] | intros [Hs Hl]]. inversion Hl; subst. discriminate.
    + destruct (accepts a c) eqn:Hc.
      * split.
        -- intros [H | []]. injection H as <- <-. split; [reflexivity | now constructor].
        -- intros [Hs Hl]. inversion Hl; subst. injection Hs as <- <-. now left.
      * split; [intros [] | intros [Hs Hl]]. inversion Hl; subst.
        injection Hs as <- _. congruence.
  - apply star_matches_iff.
  - cbn [matches]. rewrite in_flat_map. split.
    + intros [[m1 s1] [H1 H2]]. apply in_map_iff in H2 as [[m2 s2] [E H2]].
      simpl in E. injection E as <- <-. simpl in H2.
      apply IH1 in H1 as [-> L1]. apply IH2 in H2 as [-> L2].
      split; [now rewrite app_assoc | now constructor].
    + intros [-> Hl]. inversion Hl as [| | | | ? ? m1 m2 L1 L2 | |]; subst.
      exists (m1, m2 ++ rest). split.
      * apply IH1. split; [now rewrite app_assoc | exact L1].
      * apply in_map_iff. exists (m2, rest). split; [reflexivity |].
        apply IH2. now split.
  - cbn [matches]. rewrite in_app_iff, IH1, IH2. split.
    + intros [[-> L] | [-> L]]; (split; [reflexivity |]);
        [now apply lang_alt_l | now apply lang_alt_r].
    + intros [-> Hl]. inversion Hl; subst; [left | right]; now split.
Qed.

Lemma hd_error_In {A} (l : list A) (x : A) : hd_error l = Some x -> In x l.
Proof. destruct l; [discriminate | intros H; injection H as ->; now left]. Qed.

Lemma match_at_Some (head group : regex) (s : str) (mt : re_match) :
  match_at head group s = Some mt ->
  exists h rest, s = group0 mt ++ rest /\ group0 mt = h ++ group1 mt /\
                 lang head h /\ lang group (group1 mt).
Proof.
  intros H. apply hd_error_In in H. apply in_flat_map in H as [[h s1] [H1 H2]].
  apply in_map_iff in H2 as [[g s2] [E H2]]. simpl in E, H2. subst mt. simpl.
  apply matches_iff in H1 as [-> L1]. apply matches_iff in H2 as [-> L2].
  exists h, s2. repeat split; [now rewrite app_assoc | exact L1 | exact L2].
Qed.

Lemma match_at_None (head group : regex) (s : str) :
  match_at head group s = None ->
  forall h g rest, s = h ++ g ++ rest -> lang head h -> lang group g -> False.
Proof.
  unfold match_at. intros H h g rest Hs L1 L2.
  assert (Hin : In {| group0 := h ++ g; group1 := g |}
                   (flat_map (fun m1 =>
                      map (fun m2 => {| group0 := fst m1 ++ fst m2; group1 := fst m2 |})
                          (matches group (snd m1))) (matches head s))).
  { apply in_flat_map. exists (h, g ++ rest). split.
    - apply matches_iff. now split.
    - apply in_map_iff. exists (g, rest). split; [reflexivity |].
      apply matches_iff. now split. }
  destruct (flat_map _ _); [destruct Hin | discriminate].
Qed.

End ReFacts.

(** ** The status marker *)

Module MarkerFacts.
Import Re ReFacts PyStrFacts.

Lemma lang_literal_iff (p m : str) : lang (literal p) m <-> ci_eq p m.
Proof.
  revert m. induction p as [|c p IH]; intros m; simpl.
  - split; intros H; inversion H; subst; constructor.
  - split; intros H.
    + inversion H as [| | | | ? ? m1 m2 L1 L2 | |]; subst.
      inversion L1; subst. simpl. constructor; [assumption | now apply IH].
    + inversion H as [|? y ? t Hc Ht]; subst.
      change (y :: t) with ([y] ++ t). constructor; [now constructor | now apply IH].
Qed.

Lemma lang_star_space_iff (ws : str) : lang (Star Space) ws <-> all_space ws.
Proof.
  induction ws as [|c ws IH]; split; intros H.
  - constructor.
  - constructor.
  - inversion H; subst. constructor; [assumption | now apply IH].
  - inversion H; subst. constructor; [assumption | now apply IH].
Qed.

(** The marker of the specification is the language of the pattern. *)
Lemma lang_marker_iff (m w : str) :
  (exists h, m = h ++ w /\ lang marker_head h /\ lang marker_group w) <-> Marker m w.
Proof.
  unfold Marker, marker_head, marker_group. split.
  - intros (h & -> & Lh & Lw).
    inversion Lh as [| | | | ? ? kw ws L1 L2 | |]; subst.
    exists kw, ws. repeat split.
    + now rewrite app_assoc.
    + now apply lang_literal_iff.
    + now apply lang_star_space_iff.
    + inversion Lw; subst; [left | right]; now apply lang_literal_iff.
  - intros (kw & ws & -> & Hk & Hs & Hw).
    exists (kw ++ ws). repeat split.
    + now rewrite app_assoc.
    + constructor; [now apply lang_literal_iff | now apply lang_star_space_iff].
    + destruct Hw as [Hw | Hw];
        [apply lang_alt_l | apply lang_alt_r]; now apply lang_literal_iff.
Qed.

Lemma ci_eq_length (p x : str) : ci_eq p x -> List.length x = List.length p.
Proof. intros H. symmetry. exact (Forall2_length H). Qed.

Lemma app_eq_length {A} (a a' b b' : list A) :
  List.length a = List.length a' -> a ++ b = a' ++ b' -> a = a' /\ b = b'.
Proof.
  revert a'. induction a as [|x a IH]; intros [|y a'] Hl H; try discriminate.
  - now split.
  - simpl in *. injection H as -> H. destruct (IH a') as [-> ->]; [lia | exact H | now split].
Qed.

Lemma status_word_shape (w : str) :
  ci_eq (lit "PASSED") w \/ ci_eq (lit "FAILED") w ->
  List.length w = 6 /\ exists c t, w = c :: t /\ isspace c = false.
Proof.
  intros [H | H]; (split; [exact (ci_eq_length _ _ H) |]);
    inversion H as [|p c ps t Hc Ht]; subst; exists c, t; (split; [reflexivity |]);
    unfold lit_ignorecase in Hc; simpl in Hc;
    rewrite orb_false_r in Hc; apply orb_true_iff in Hc as [Hc | Hc];
    apply N.eqb_eq in Hc; subst c; reflexivity.
Qed.

Lemma space_run_unique (ws ws' r r' : str) :
  all_space ws -> all_space ws' ->
  (exists c t, r = c :: t /\ isspace c = false) ->
  (exists c t, r' = c :: t /\ isspace c = false) ->
  ws ++ r = ws' ++ r' -> ws = ws' /\ r = r'.
Proof.
  intros Hs. revert ws'. induction Hs as [|x ws Hx Hs IH];
    intros ws' Hs' (c & t & -> & Hc) (c' & t' & -> & Hc') H.
  - destruct Hs' as [|y ws' Hy Hs'].
    + now split.
    + simpl in H. injection H as -> _. congruence.
  - destruct Hs' as [|y ws' Hy Hs'].
    + simpl in H. injection H as -> _. congruence.
    + simpl in H. injection H as -> H.
      destruct (IH ws' Hs') as [-> E]; [now exists c, t | now exists c', t' | exact H |].
      now split.
Qed.

(** At a given position at most one marker starts. *)
Lemma marker_unique (m w post m' w' post' : str) :
  Marker m w -> Marker m' w' -> m ++ post = m' ++ post' -> m = m' /\ w = w'.
Proof.
  intros (kw & ws & -> & Hk & Hs & Hw) (kw' & ws' & -> & Hk' & Hs' & Hw') H.
  rewrite <- !app_assoc in H.
  apply app_eq_length in H as [<- H];
    [| now rewrite (ci_eq_length _ _ Hk), (ci_eq_length _ _ Hk')].
  destruct (status_word_shape _ Hw) as [Lw (c & t & Ew & Hc)].
  destruct (status_word_shape _ Hw') as [Lw' (c' & t' & Ew' & Hc')].
  apply space_run_unique in H as [<- H]; try assumption.
  - apply app_eq_length in H as [<- _]; [now split | congruence].
  - exists c, (t ++ post). now rewrite Ew.
  - exists c', (t' ++ post'). now rewrite Ew'.
Qed.

Lemma match_at_marker (s : str) (mt : re_match) :
  match_at marker_head marker_group s = Some mt ->
  exists rest, s = group0 mt ++ rest /\ Marker (group0 mt) (group1 mt).
Proof.
  intros H. apply match_at_Some in H as (h & rest & Hs & H0 & Lh & Lg).
  exists rest. split; [exact Hs |]. apply lang_marker_iff. now exists h.
Qed.

Lemma match_at_no_marker (s : str) :
  match_at marker_head marker_group s = None ->
  forall m w post, s = m ++ post -> Marker m w -> False.
Proof.
  intros H m w post Hs Hm. apply lang_marker_iff in Hm as (h & -> & Lh & Lw).
  rewrite <- app_assoc in Hs. exact (match_at_None _ _ _ H h w post Hs Lh Lw).
Qed.

(** [re.search] returns the earliest marker of the text. *)
Lemma search_Some (s : str) (mt : re_match) :
  search marker_head marker_group s = Some mt ->
  exists pre post, first_marker s pre (group0 mt) (group1 mt) post.
Proof.
  induction s as [|c s IH]; cbn [search];
    destruct (match_at marker_head marker_group _) as [m0|] eqn:Hm; intros H;
    try discriminate.
  - injection H as ->. apply match_at_marker in Hm as (rest & Hs & HM).
    exists [], rest. repeat split; [exact Hs | exact HM | intros; simpl; lia].
  - destruct (IH H) as (pre & post & Hs & HM & Hfirst).
    exists (c :: pre), post. repeat split.
    + simpl. now f_equal.
    + exact HM.
    + intros [|c' pre'] m' w' post' Hs' HM'.
      * exfalso. exact (match_at_no_marker _ Hm m' w' post' Hs' HM').
      * simpl in Hs'. injection Hs' as <- Hs'. simpl.
        apply le_n_S. exact (Hfirst _ _ _ _ Hs' HM').
Qed.

Lemma search_None (s : str) :
  search marker_head marker_group s = None -> ~ has_marker s.
Proof.
  induction s as [|c s IH]; cbn [search];
    destruct (match_at marker_head marker_group _) as [m0|] eqn:Hm; intros H;
    try discriminate; intros (pre & m & w & post & Hs & HM).
  - destruct pre; [exact (match_at_no_marker _ Hm m w post Hs HM) | discriminate].
  - destruct pre as [|c' pre].
    + exact (match_at_no_marker _ Hm m w post Hs HM).
    + simpl in Hs. injection Hs as <- Hs. apply (IH H). now exists pre, m, w, post.
Qed.

Lemma search_None_iff (s : str) :
  search marker_head marker_group s = None <-> ~ has_marker s.
Proof.
  split; [apply search_None |]. intros Hn.
  destruct (search marker_head marker_group s) as [mt|] eqn:E; [| reflexivity].
  exfalso. apply Hn. apply search_Some in E as (pre & post & Hs & HM & _).
  now exists pre, (group0 mt), (group1 mt), post.
Qed.

Lemma search_first (s pre m w post : str) :
  first_marker s pre m w post ->
  search marker_head marker_group s = Some {| group0 := m; group1 := w |}.
Proof.
  intros (Hs & HM & Hfirst).
  destruct (search marker_head marker_group s) as [[m0 w0]|] eqn:E.
  - apply search_Some in E as (pre0 & post0 & Hs0 & HM0 & Hfirst0). simpl in *.
    assert (Hlen : List.length pre = List.length pre0).
    { apply Nat.le_antisymm; [exact (Hfirst _ _ _ _ Hs0 HM0) | exact (Hfirst0 _ _ _ _ Hs HM)]. }
    rewrite Hs0 in Hs. symmetry in Hs. apply app_eq_length in Hs as [_ Hs]; [| exact Hlen].
    destruct (marker_unique _ _ _ _ _ _ HM HM0 Hs) as [-> ->]. reflexivity.
  - exfalso. apply (search_None _ E). now exists pre, m, w, post.
Qed.

Lemma has_marker_first (s : str) :
  has_marker s -> exists pre m w post, first_marker s pre m w post.
Proof.
  intros H. destruct (search marker_head marker_group s) as [mt|] eqn:E.
  - apply search_Some in E as (pre & post & Hf).
    now exists pre, (group0 mt), (group1 mt), post.
  - now apply search_None in E.
Qed.

Lemma marker_nonempty (m w : str) : Marker m w -> m <> [].
Proof.
  intros (kw & ws & -> & Hk & _) E. apply ci_eq_length in Hk.
  destruct kw; [discriminate | discriminate].
Qed.

End MarkerFacts.

(** ** The verdict extractor *)

Module Verdict.
Import Re ReFacts PyStrFacts MarkerFacts.

Lemma not_substring (sub s : str) : contains sub s = false -> ~ substring sub s.
Proof.
  intros H Hs. apply contains_spec in Hs. congruence.
Qed.

Lemma parse_with_first_marker (ucd_upper : cp -> str) (text pre m w post : str) :
  first_marker text pre m w post ->
  parse_markdown_response ucd_upper {| content := text |} =
  {| is_ok := eqb (upper ucd_upper w) (lit "PASSED");
     report := strip (replace text m []) |}.
Proof.
  intros H. unfold parse_markdown_response. cbn [content].
  now rewrite (search_first _ _ _ _ _ H).
Qed.

Lemma parse_without_marker (ucd_upper : cp -> str) (text : str) :
  ~ has_marker text ->
  parse_markdown_response ucd_upper {| content := text |} =
  {| is_ok := negb (contains (lit "CRITICAL BUG") (upper ucd_upper text) ||
                    contains (lit "SECURITY VULNERABILITY") (upper ucd_upper text));
     report := text |}.
Proof.
  intros H. apply search_None_iff in H. unfold parse_markdown_response. cbn [content].
  rewrite H. now destruct (_ || _).
Qed.

Lemma upper_substring (ucd_upper : cp -> str) (k text : str) :
  substring k text -> substring (upper ucd_upper k) (upper ucd_upper text).
Proof.
  intros (a & b & ->). exists (upper ucd_upper a), (upper ucd_upper b).
  now rewrite !upper_app.
Qed.

(** C1: when the reply holds a status marker, [is_ok] is true exactly when
    the status word of the marker found (the earliest one) upper-cases to
    PASSED, and the report is the reply with the marker text taken out, then
    stripped of surrounding white space.  In particular the reply
    "Looks fine.\nFINAL_STATUS: PASSED" gives a passing verdict with the
    report "Looks fine.". *)
Theorem extract_marker_found (ucd_upper : cp -> str) :
  (forall text,
      has_marker text ->
      exists pre m w post,
        first_marker text pre m w post /\
        (is_ok (parse_markdown_response ucd_upper {| content := text |}) = true <->
         upper ucd_upper w = lit "PASSED") /\
        report (parse_markdown_response ucd_upper {| content := text |}) =
        strip (replace text m [])) /\
  parse_markdown_response ucd_upper
    {| content := lit "Looks fine." ++ nl ++ lit "FINAL_STATUS: PASSED" |} =
  {| is_ok := true; report := lit "Looks fine." |}.
Proof.
  split.
  - intros text H. destruct (has_marker_first _ H) as (pre & m & w & post & Hf).
    exists pre, m, w, post. split; [exact Hf |].
    rewrite (parse_with_first_marker ucd_upper _ _ _ _ _ Hf). cbn [is_ok report].
    split; [apply eqb_spec | reflexivity].
  - vm_compute. reflexivity.
Qed.

Lemma extract_marker_found_witness :
  has_marker (lit "Found issue." ++ nl ++ lit "FINAL_STATUS: failed") /\
  exists pre m w post,
    first_marker (lit "Found issue." ++ nl ++ lit "FINAL_STATUS: failed") pre m w post /\
    (is_ok (parse_markdown_response (fun c => [c])
              {| content := lit "Found issue." ++ nl ++ lit "FINAL_STATUS: failed" |}) = true <->
     upper (fun c => [c]) w = lit "PASSED") /\
    report (parse_markdown_response (fun c => [c])
              {| content := lit "Found issue." ++ nl ++ lit "FINAL_STATUS: failed" |}) =
    strip (replace (lit "Found issue." ++ nl ++ lit "FINAL_STATUS: failed") m []).
Proof.
  assert (H : has_marker (lit "Found issue." ++ nl ++ lit "FINAL_STATUS: failed")).
  { exists (lit "Found issue." ++ nl), (lit "FINAL_STATUS: failed"), (lit "failed"), [].
    split; [reflexivity |].
    exists (lit "FINAL_STATUS:"), (lit " ").
    split; [reflexivity |]. split; [| split].
    - repeat constructor.
    - repeat constructor.
    - right. repeat constructor. }
  split; [exact H |].
  exact (proj1 (extract_marker_found (fun c => [c])) _ H).
Defined.

(** C2: when the reply holds no status marker, [is_ok] is false if the
    upper-cased reply contains CRITICAL BUG or SECURITY VULNERABILITY, true
    otherwise, and the report is the reply itself; a reply that contains
    SECURITY VULNERABILITY as written is among the failing ones. *)
Theorem extract_no_marker (ucd_upper : cp -> str) (text : str) :
  ~ has_marker text ->
  (substring (lit "CRITICAL BUG") (upper ucd_upper text) \/
   substring (lit "SECURITY VULNERABILITY") (upper ucd_upper text) ->
   is_ok (parse_markdown_response ucd_upper {| content := text |}) = false) /\
  (~ substring (lit "CRITICAL BUG") (upper ucd_upper text) ->
   ~ substring (lit "SECURITY VULNERABILITY") (upper ucd_upper text) ->
   is_ok (parse_markdown_response ucd_upper {| content := text |}) = true) /\
  (substring (lit "SECURITY VULNERABILITY") text ->
   is_ok (parse_markdown_response ucd_upper {| content := text |}) = false) /\
  report (parse_markdown_response ucd_upper {| content := text |}) = text.
Proof.
  intros H. rewrite (parse_without_marker ucd_upper _ H). cbn [is_ok report].
  assert (Hfail : substring (lit "CRITICAL BUG") (upper ucd_upper text) \/
                  substring (lit "SECURITY VULNERABILITY") (upper ucd_upper text) ->
                  negb (contains (lit "CRITICAL BUG") (upper ucd_upper text) ||
                        contains (lit "SECURITY VULNERABILITY") (upper ucd_upper text)) = false).
  { intros [Hc | Hc]; apply contains_spec in Hc; rewrite Hc;
      [reflexivity | now rewrite orb_true_r]. }
  split; [exact Hfail | split; [| split; [| reflexivity]]].
  - intros Hc Hs.
    destruct (contains (lit "CRITICAL BUG") (upper ucd_upper text)) eqn:Ec.
    + exfalso. apply Hc. now apply contains_spec.
    + destruct (contains (lit "SECURITY VULNERABILITY") (upper ucd_upper text)) eqn:Es.
      * exfalso. apply Hs. now apply contains_spec.
      * reflexivity.
  - intros Hs. apply Hfail. right.
    exact (upper_substring ucd_upper _ _ Hs).
Qed.

Lemma extract_no_marker_witness :
  ~ has_marker (lit "Possible SECURITY VULNERABILITY in auth.py") /\
  is_ok (parse_markdown_response (fun c => [c])
           {| content := lit "Possible SECURITY VULNERABILITY in auth.py" |}) = false /\
  report (parse_markdown_response (fun c => [c])
            {| content := lit "Possible SECURITY VULNERABILITY in auth.py" |}) =
  lit "Possible SECURITY VULNERABILITY in auth.py".
Proof.
  assert (H : ~ has_marker (lit "Possible SECURITY VULNERABILITY in auth.py"))
    by (apply search_None_iff; vm_compute; reflexivity).
  split; [exact H |].
  destruct (extract_no_marker (fun c => [c]) _ H) as (_ & _ & Hsec & Hrep).
  split; [| exact Hrep].
  apply Hsec. exists (lit "Possible "), (lit " in auth.py"). reflexivity.
Defined.

(** C9 as stated does not hold: the reply "critical bug" holds no marker
    and holds neither phrase in the letter case of the code, yet the verdict
    is a failure. *)
Lemma fallback_case_sensitive_counterexample :
  ~ has_marker (lit "critical bug") /\
  ~ substring (lit "CRITICAL BUG") (lit "critical bug") /\
  ~ substring (lit "SECURITY VULNERABILITY") (lit "critical bug") /\
  is_ok (parse_markdown_response (fun c => [c]) {| content := lit "critical bug" |}) = false.
Proof.
  split; [apply search_None_iff; vm_compute; reflexivity |].
  split; [apply not_substring; vm_compute; reflexivity |].
  split; [apply not_substring; vm_compute; reflexivity |].
  vm_compute. reflexivity.
Qed.

(** C9, amended: without a marker the two phrases are looked for in the
    upper-cased reply, so a phrase in any letter case (any text whose upper
    case is the phrase) makes the verdict a failure; the report is the reply
    itself. *)
Theorem fallback_any_case (ucd_upper : cp -> str) (text k : str) :
  ~ has_marker text ->
  upper ucd_upper k = lit "CRITICAL BUG" \/
  upper ucd_upper k = lit "SECURITY VULNERABILITY" ->
  substring k text ->
  is_ok (parse_markdown_response ucd_upper {| content := text |}) = false /\
  report (parse_markdown_response ucd_upper {| content := text |}) = text.
Proof.
  intros H Hk Hs. rewrite (parse_without_marker ucd_upper _ H). cbn [is_ok report].
  split; [| reflexivity].
  apply (upper_substring ucd_upper) in Hs.
  destruct Hk as [Hk | Hk]; rewrite Hk in Hs; apply contains_spec in Hs; rewrite Hs;
    [reflexivity | now rewrite orb_true_r].
Qed.

Lemma fallback_any_case_witness :
  ~ has_marker (lit "There is a Critical Bug here.") /\
  is_ok (parse_markdown_response (fun c => [c])
           {| content := lit "There is a Critical Bug here." |}) = false /\
  report (parse_markdown_response (fun c => [c])
            {| content := lit "There is a Critical Bug here." |}) =
  lit "There is a Critical Bug here.".
Proof.
  assert (H : ~ has_marker (lit "There is a Critical Bug here."))
    by (apply search_None_iff; vm_compute; reflexivity).
  split; [exact H |].
  apply (fallback_any_case (fun c => [c]) _ (lit "Critical Bug") H).
  - left. vm_compute. reflexivity.
  - exists (lit "There is a "), (lit " here."). reflexivity.
Defined.

(** C10: when the reply holds several markers whose status words disagree,
    the verdict is that of the earliest one, and the report is the reply cut
    at the copies of that marker's text, the pieces put together and
    stripped: nothing but copies of the first marker's text is taken out.
    In particular a FAILED marker followed by a PASSED one gives a failing
    verdict and leaves the second marker in the report. *)
Theorem first_marker_wins (ucd_upper : cp -> str) :
  (forall text pre m w post pre2 m2 w2 post2,
      first_marker text pre m w post ->
      text = pre2 ++ m2 ++ post2 -> Marker m2 w2 ->
      eqb (upper ucd_upper w2) (lit "PASSED") <> eqb (upper ucd_upper w) (lit "PASSED") ->
      is_ok (parse_markdown_response ucd_upper {| content := text |}) =
      eqb (upper ucd_upper w) (lit "PASSED") /\
      is_ok (parse_markdown_response ucd_upper {| content := text |}) <>
      eqb (upper ucd_upper w2) (lit "PASSED") /\
      exists p ps,
        text = join m (p :: ps) /\
        Forall (fun q => contains m q = false) (p :: ps) /\
        report (parse_markdown_response ucd_upper {| content := text |}) =
        strip (join [] (p :: ps))) /\
  parse_markdown_response ucd_upper
    {| content := lit "FINAL_STATUS: FAILED" ++ nl ++ lit "FINAL_STATUS: PASSED" |} =
  {| is_ok := false; report := lit "FINAL_STATUS: PASSED" |}.
Proof.
  split.
  - intros text pre m w post pre2 m2 w2 post2 Hf Ht2 HM2 Hne.
    rewrite (parse_with_first_marker ucd_upper _ _ _ _ _ Hf). cbn [is_ok report].
    split; [reflexivity | split; [congruence |]].
    destruct Hf as (_ & HM & _).
    destruct (replace_pieces m [] (marker_nonempty _ _ HM) text) as (p & ps & Ht & Hr & Hfa).
    exists p, ps. repeat split; [exact Ht | exact Hfa | now rewrite Hr].
  - vm_compute. reflexivity.
Qed.

Lemma first_marker_wins_witness :
  first_marker (lit "FINAL_STATUS: FAILED" ++ nl ++ lit "FINAL_STATUS: PASSED")
               [] (lit "FINAL_STATUS: FAILED") (lit "FAILED")
               (nl ++ lit "FINAL_STATUS: PASSED") /\
  is_ok (parse_markdown_response (fun c => [c])
           {| content := lit "FINAL_STATUS: FAILED" ++ nl ++ lit "FINAL_STATUS: PASSED" |}) =
  eqb (upper (fun c => [c]) (lit "FAILED")) (lit "PASSED").
Proof.
  assert (HM : forall w, w = lit "FAILED" \/ w = lit "PASSED" ->
                         Marker (lit "FINAL_STATUS: " ++ w) w).
  { intros w Hw. exists (lit "FINAL_STATUS:"), (lit " ").
    split; [reflexivity |]. split; [repeat constructor |]. split; [repeat constructor |].
    destruct Hw as [-> | ->]; [right | left]; repeat constructor. }
  assert (Hf : first_marker (lit "FINAL_STATUS: FAILED" ++ nl ++ lit "FINAL_STATUS: PASSED")
                            [] (lit "FINAL_STATUS: FAILED") (lit "FAILED")
                            (nl ++ lit "FINAL_STATUS: PASSED")).
  { split; [reflexivity |]. split; [apply (HM (lit "FAILED")); now left |].
    intros; simpl; lia. }
  split; [exact Hf |].
  refine (proj1 (proj1 (first_marker_wins (fun c => [c])) _ _ _ _ _
                       (lit "FINAL_STATUS: FAILED" ++ nl) (lit "FINAL_STATUS: PASSED")
                       (lit "PASSED") [] Hf _ _ _)).
  - reflexivity.
  - apply (HM (lit "PASSED")). now right.
  - vm_compute. discriminate.
Defined.

End Verdict.

(** ** The client and the assembler *)

Module ClientFacts.
Import PyStrFacts.

Lemma skipn_suffix {A} (a b : list A) : skipn (List.length a) (a ++ b) = b.
Proof. induction a; simpl; [reflexivity | assumption]. Qed.

Lemma endswith_spec (s suffix : str) :
  endswith s suffix = true <-> exists a, s = a ++ suffix.
Proof.
  unfold endswith. rewrite andb_true_iff, Nat.leb_le, eqb_spec. split.
  - intros [Hl Hs]. exists (firstn (List.length s - List.length suffix) s).
    rewrite <- Hs at 2. now rewrite firstn_skipn.
  - intros [a ->]. rewrite length_app. split; [lia |].
    replace (List.length a + List.length suffix - List.length suffix) with (List.length a) by lia.
    apply skipn_suffix.
Qed.

Lemma retained_iff (ff : option (list str)) (c : Change) :
  retained ff c = true <-> Retained ff c.
Proof.
  unfold retained, Retained. rewrite andb_true_iff, negb_true_iff.
  destruct ff as [[|e exts]|]; try tauto.
  rewrite existsb_exists. split; intros [Hd H]; (split; [exact Hd |]).
  - destruct H as (ext & Hin & He). apply endswith_spec in He as [a Ha]. now exists ext, a.
  - destruct H as (ext & a & Hin & Ha). exists ext. split; [exact Hin |].
    apply endswith_spec. now exists a.
Qed.

Lemma retained_code (ff : option (list str)) (c : Change) :
  retained ff c = negb (filtered_out ff (new_path c)) && negb (deleted_file c).
Proof.
  unfold retained, filtered_out.
  destruct ff as [[|e exts]|]; simpl; rewrite ?negb_involutive; apply andb_comm.
Qed.

Lemma encodable_utf8 (s : str) : encodable s -> exists b, Urllib.utf8_encode s = Some b.
Proof.
  induction 1 as [|c s Hc Hs [b Hb]]; simpl.
  - now exists [].
  - rewrite Hb. unfold Urllib.utf8_encode_cp.
    destruct (c <? 128)%N; [eexists; reflexivity |].
    destruct (c <? 2048)%N; [eexists; reflexivity |].
    apply orb_true_iff in Hc as [Hc | Hc].
    + apply N.ltb_lt in Hc.
      replace (55296 <=? c)%N with false by (symmetry; apply N.leb_gt; exact Hc).
      simpl. destruct (c <? 65536)%N; eexists; reflexivity.
    + apply N.ltb_lt in Hc.
      replace (c <=? 57343)%N with false by (symmetry; apply N.leb_gt; exact Hc).
      rewrite andb_false_r. destruct (c <? 65536)%N; eexists; reflexivity.
Qed.

Lemma encodable_quote (s : str) : encodable s -> exists q, Urllib.quote s = Some q.
Proof.
  intros H. destruct (encodable_utf8 s H) as [b Hb]. unfold Urllib.quote.
  rewrite Hb. eexists. reflexivity.
Qed.

(** *** Traces *)

Lemma only_emits_ret (P : event -> Prop) {A} (a : A) : only_emits P (ret a).
Proof. intros tr. exists []. split; [simpl; now rewrite app_nil_r | constructor]. Qed.

Lemma only_emits_raise (P : event -> Prop) {A} (e : exn) : only_emits P (@raise A e).
Proof. intros tr. exists []. split; [simpl; now rewrite app_nil_r | constructor]. Qed.

Lemma only_emits_emit (P : event -> Prop) (e : event) : P e -> only_emits P (emit e).
Proof. intros H tr. exists [e]. split; [reflexivity | now constructor]. Qed.

Lemma only_emits_bind (P : event -> Prop) {A B} (m : M A) (k : A -> M B) :
  only_emits P m -> (forall a, only_emits P (k a)) -> only_emits P (bind m k).
Proof.
  intros Hm Hk tr. unfold bind. destruct (Hm tr) as (e1 & H1 & F1).
  destruct (m tr) as [[a | e] tr1]; simpl in H1; subst tr1.
  - destruct (Hk a (tr ++ e1)) as (e2 & H2 & F2).
    exists (e1 ++ e2). split; [now rewrite H2, app_assoc | now apply Forall_app].
  - now exists e1.
Qed.

Lemma only_emits_requests_get (w : World) (url : str) :
  only_emits client_event (requests_get w url).
Proof.
  intros tr. exists [HttpGet url (private_token w)]. unfold requests_get.
  split; [now destruct (http w tr url (private_token w)) | now constructor].
Qed.

Lemma only_emits_quote (s : str) : only_emits client_event (quote s).
Proof.
  unfold quote. destruct (Urllib.quote s); [apply only_emits_ret | apply only_emits_raise].
Qed.

Lemma only_emits_fetch_mr_changes (w : World) (g pid mr : str) :
  only_emits client_event (fetch_mr_changes w g pid mr).
Proof.
  unfold fetch_mr_changes.
  apply only_emits_bind; [apply only_emits_quote | intros sid].
  apply only_emits_bind; [now apply only_emits_emit | intros _].
  apply only_emits_bind; [apply only_emits_requests_get | intros r].
  destruct (negb _); [apply only_emits_raise |].
  destruct (json r); [apply only_emits_ret | apply only_emits_raise].
Qed.

Lemma only_emits_fetch_raw_file (w : World) (g pid path ref : str) :
  only_emits client_event (fetch_raw_file w g pid path ref).
Proof.
  unfold fetch_raw_file.
  apply only_emits_bind; [apply only_emits_quote | intros sid].
  apply only_emits_bind; [apply only_emits_quote | intros sp].
  apply only_emits_bind; [apply only_emits_requests_get | intros r].
  destruct (negb _); apply only_emits_ret.
Qed.

Lemma only_emits_load_changes (w : World) (g pid : str) (sb : option str)
      (ff : option (list str)) (changes : list Change) :
  forall docs, only_emits client_event (load_changes w g pid sb ff changes docs).
Proof.
  induction changes as [|c rest IH]; intros docs; cbn [load_changes].
  - apply only_emits_ret.
  - destruct (filtered_out ff (new_path c)); [apply IH |].
    destruct (deleted_file c); [apply IH |].
    apply only_emits_bind; [now apply only_emits_emit | intros _].
    apply only_emits_bind; [apply only_emits_fetch_raw_file | intros full].
    apply IH.
Qed.

Lemma only_emits_load (w : World) (g pid mr : str) (ff : option (list str)) :
  only_emits client_event (load_merge_request_data w g pid mr ff).
Proof.
  unfold load_merge_request_data.
  apply only_emits_bind; [apply only_emits_fetch_mr_changes | intros d].
  apply only_emits_bind; [now apply only_emits_emit | intros _].
  apply only_emits_load_changes.
Qed.

(** *** The two fetches *)

Lemma fetch_raw_file_reply (w : World) (g pid path ref sid sp : str)
      (tr : list event) (r : Response) :
  Urllib.quote pid = Some sid -> Urllib.quote path = Some sp ->
  http w tr (raw_file_url g sid sp ref) (private_token w) = Replied r ->
  fetch_raw_file w g pid path ref tr =
  (Ok (content_of r), tr ++ [HttpGet (raw_file_url g sid sp ref) (private_token w)]).
Proof.
  intros Hp Hf Hr. unfold fetch_raw_file, quote, bind, requests_get.
  rewrite Hp, Hf. cbn [ret]. fold (raw_file_url g sid sp ref). rewrite Hr.
  unfold content_of, sentinel. now destruct (status_code r =? 200)%Z.
Qed.

Lemma fetch_raw_file_cases (w : World) (g pid path ref sid : str) (tr : list event) :
  Urllib.quote pid = Some sid ->
  (exists sp r,
      Urllib.quote path = Some sp /\
      http w tr (raw_file_url g sid sp ref) (private_token w) = Replied r /\
      fetch_raw_file w g pid path ref tr =
      (Ok (content_of r), tr ++ [HttpGet (raw_file_url g sid sp ref) (private_token w)])) \/
  (exists e tr', fetch_raw_file w g pid path ref tr = (Raise e, tr') /\
                 (e = UnicodeEncodeError \/ e = RequestException)).
Proof.
  intros Hp. destruct (Urllib.quote path) as [sp|] eqn:Hf.
  - destruct (http w tr (raw_file_url g sid sp ref) (private_token w)) as [r|] eqn:Hr.
    + left. exists sp, r. repeat split; [exact Hr |]. now apply fetch_raw_file_reply.
    + right. unfold fetch_raw_file, quote, bind, requests_get. rewrite Hp, Hf. cbn [ret].
      fold (raw_file_url g sid sp ref). rewrite Hr. eexists _, _. split; [reflexivity | now right].
  - right. unfold fetch_raw_file, quote, bind. rewrite Hp, Hf. cbn [ret raise].
    eexists _, _. split; [reflexivity | now left].
Qed.

Lemma fetch_raw_file_raises (w : World) (g pid path ref : str) (tr tr' : list event) (e : exn) :
  fetch_raw_file w g pid path ref tr = (Raise e, tr') ->
  e = UnicodeEncodeError \/
  e = RequestException /\ exists url, http w tr url (private_token w) = Failed.
Proof.
  unfold fetch_raw_file, quote, bind, requests_get.
  destruct (Urllib.quote pid) as [sid|]; cbn [ret raise];
    [| intros H; injection H as <- _; now left].
  destruct (Urllib.quote path) as [sp|]; cbn [ret raise];
    [| intros H; injection H as <- _; now left].
  destruct (http w tr _ (private_token w)) as [r|] eqn:Hr.
  - destruct (negb _); discriminate.
  - intros H. injection H as <- _. right. split; [reflexivity | eexists; exact Hr].
Qed.

Lemma fetch_mr_changes_reply (w : World) (g pid mr sid : str) (tr : list event) (r : Response) :
  Urllib.quote pid = Some sid ->
  http w (tr ++ [Print (fetching_line (changes_url g sid mr))]) (changes_url g sid mr)
       (private_token w) = Replied r ->
  fetch_mr_changes w g pid mr tr =
  (if negb (status_code r =? 200)%Z
   then Raise (Exception (lit "Failed to fetch MR: " ++ of_int (status_code r) ++
                          lit " - " ++ text r))
   else match json r with Some d => Ok d | None => Raise JSONDecodeError end,
   tr ++ [Print (fetching_line (changes_url g sid mr));
          HttpGet (changes_url g sid mr) (private_token w)]).
Proof.
  intros Hp Hr. unfold fetch_mr_changes, quote, bind, requests_get, print, emit.
  rewrite Hp. cbn [ret]. fold (changes_url g sid mr). fold (fetching_line (changes_url g sid mr)).
  rewrite Hr. rewrite <- app_assoc. cbn [app].
  destruct (negb _); [reflexivity |]. now destruct (json r).
Qed.

Lemma fetch_mr_changes_quoted (w : World) (g pid mr : str) (tr tr1 : list event) (d : MRData) :
  fetch_mr_changes w g pid mr tr = (Ok d, tr1) -> exists sid, Urllib.quote pid = Some sid.
Proof.
  unfold fetch_mr_changes, quote, bind. destruct (Urllib.quote pid) as [sid|].
  - intros _. now exists sid.
  - discriminate.
Qed.

(** *** The loop of the assembler *)

Lemma combined_content_layout (path d full : str) :
  combined_content path d full =
  header_line path ++ diff_section d ++ nl ++ content_section full.
Proof.
  unfold combined_content, header_line, diff_section, content_section.
  now rewrite <- !app_assoc.
Qed.

Lemma load_changes_spec (w : World) (g pid sid : str) (sb : option str)
      (ff : option (list str)) :
  Urllib.quote pid = Some sid ->
  forall changes docs tr res tr',
    load_changes w g pid sb ff changes docs tr = (res, tr') ->
    match res with
    | Ok out => exists new, out = docs ++ new /\
                            Forall2 (unit_of w g sid sb) (filter (retained ff) changes) new
    | Raise e => e = UnicodeEncodeError \/ e = RequestException
    end.
Proof.
  intros Hp. induction changes as [|c rest IH]; intros docs tr res tr' H.
  - cbn in H. injection H as <- <-. exists []. split; [now rewrite app_nil_r | constructor].
  - cbn [load_changes filter] in *. rewrite retained_code.
    destruct (filtered_out ff (new_path c)); [exact (IH _ _ _ _ H) |].
    destruct (deleted_file c); [exact (IH _ _ _ _ H) |].
    cbn [negb andb]. unfold bind at 1 in H. unfold print, emit in H. unfold bind at 1 in H.
    destruct (fetch_raw_file_cases w g pid (new_path c) (format_opt sb) sid
                (tr ++ [Print (lit "   " ++ [0x2B07%N; 0xFE0F%N] ++ lit "  Loading: " ++ new_path c)]) Hp)
      as [(sp & r & Hq & Hr & Hfetch) | (e & tr2 & Hfetch & He)];
      rewrite Hfetch in H.
    + apply IH in H. destruct res as [out | e]; [| exact H].
      destruct H as (new & -> & HF).
      eexists (_ :: new). split; [now rewrite <- app_assoc |].
      constructor; [| exact HF]. split; [reflexivity |].
      eexists sp, _, r. repeat split; [exact Hq | exact Hr |].
      cbn [page_content]. apply combined_content_layout.
    + injection H as <- <-. exact He.
Qed.

Lemma load_changes_returns (w : World) (g pid sid : str) (sb : option str)
      (ff : option (list str)) :
  Urllib.quote pid = Some sid -> responsive w ->
  forall changes docs tr,
    Forall (fun c => encodable (new_path c)) (filter (retained ff) changes) ->
    exists out tr', load_changes w g pid sb ff changes docs tr = (Ok out, tr').
Proof.
  intros Hp Hw. induction changes as [|c rest IH]; intros docs tr Henc.
  - now exists docs, tr.
  - cbn [load_changes filter] in *. rewrite retained_code in Henc.
    destruct (filtered_out ff (new_path c)); [exact (IH _ _ Henc) |].
    destruct (deleted_file c); [exact (IH _ _ Henc) |].
    cbn [negb andb] in Henc. apply Forall_cons_iff in Henc as [Hc Henc].
    unfold bind at 1. unfold print, emit. unfold bind at 1.
    destruct (fetch_raw_file_cases w g pid (new_path c) (format_opt sb) sid
                (tr ++ [Print (lit "   " ++ [0x2B07%N; 0xFE0F%N] ++ lit "  Loading: " ++ new_path c)]) Hp)
      as [(sp & r & Hq & Hr & Hfetch) | (e & tr2 & Hfetch & He)].
    + rewrite Hfetch. apply IH. exact Henc.
    + exfalso. destruct (encodable_quote _ Hc) as [sp Hq].
      destruct (http w (tr ++ [Print (lit "   " ++ [0x2B07%N; 0xFE0F%N] ++ lit "  Loading: " ++ new_path c)])
                     (raw_file_url g sid sp (format_opt sb)) (private_token w)) as [r|] eqn:Hr.
      * rewrite (fetch_raw_file_reply w g pid (new_path c) (format_opt sb) sid sp _ r Hp Hq Hr) in Hfetch.
        discriminate.
      * exact (Hw _ _ _ Hr).
Qed.

(** [load_merge_request_data] once the metadata are in: the count line, then
    the loop. *)
Lemma load_after_fetch (w : World) (g pid mr : str) (ff : option (list str))
      (tr tr1 : list event) (d : MRData) :
  fetch_mr_changes w g pid mr tr = (Ok d, tr1) ->
  load_merge_request_data w g pid mr ff tr =
  load_changes w g pid (source_branch d) ff
    (match changes_field d with Some l => l | None => [] end) []
    (tr1 ++ [Print ([0x2705%N] ++ lit " Found " ++
                    of_nat (List.length (match changes_field d with Some l => l | None => [] end)) ++
                    lit " changed files in MR !" ++ mr)]).
Proof.
  intros H. unfold load_merge_request_data. unfold bind at 1. rewrite H.
  reflexivity.
Qed.

End ClientFacts.

(** ** The pipeline *)

Module Pipeline.
Import PyStrFacts ClientFacts.

Lemma unit_paths (w : World) (g sid : str) (sb : option str)
      (cs : list Change) (docs : list Document) :
  Forall2 (unit_of w g sid sb) cs docs ->
  map metadata_source docs = map new_path cs.
Proof.
  induction 1 as [|c d cs docs [Hsrc _] _ IH]; simpl; [reflexivity |].
  now rewrite Hsrc, IH.
Qed.

Lemma load_units (w : World) (g pid mr : str) (ff : option (list str))
      (tr tr1 : list event) (d : MRData) (sid : str) :
  fetch_mr_changes w g pid mr tr = (Ok d, tr1) ->
  Urllib.quote pid = Some sid ->
  forall docs tr',
    load_merge_request_data w g pid mr ff tr = (Ok docs, tr') ->
    Forall2 (unit_of w g sid (source_branch d)) (filter (retained ff) (changes_of d)) docs.
Proof.
  intros Hfetch Hq docs tr' H. rewrite (load_after_fetch w g pid mr ff tr tr1 d Hfetch) in H.
  apply (load_changes_spec w g pid sid (source_branch d) ff Hq) in H.
  destruct H as (new & -> & HF). exact HF.
Qed.

Lemma load_returns (w : World) (g pid mr : str) (ff : option (list str))
      (tr tr1 : list event) (d : MRData) :
  fetch_mr_changes w g pid mr tr = (Ok d, tr1) ->
  responsive w ->
  Forall (fun c => encodable (new_path c)) (filter (retained ff) (changes_of d)) ->
  exists docs tr', load_merge_request_data w g pid mr ff tr = (Ok docs, tr').
Proof.
  intros Hfetch Hw Henc. destruct (fetch_mr_changes_quoted _ _ _ _ _ _ _ Hfetch) as [sid Hq].
  rewrite (load_after_fetch w g pid mr ff tr tr1 d Hfetch).
  exact (load_changes_returns w g pid sid (source_branch d) ff Hq Hw _ _ _ Henc).
Qed.

(** C3: the source paths of the units are, in order, the new paths of the
    changes that are not deleted and (under a filter with at least one
    suffix) end with one of the suffixes; the assembler does return them when
    the platform answers; a deleted change gives no unit, and without a
    filter, or with an empty one, every change that is not deleted gives
    one. *)
Theorem units_follow_retained_changes (w : World) (g pid mr : str)
        (ff : option (list str)) (tr tr1 : list event) (d : MRData) :
  fetch_mr_changes w g pid mr tr = (Ok d, tr1) ->
  (forall docs tr',
      load_merge_request_data w g pid mr ff tr = (Ok docs, tr') ->
      map metadata_source docs = map new_path (filter (retained ff) (changes_of d))) /\
  (responsive w ->
   Forall (fun c => encodable (new_path c)) (filter (retained ff) (changes_of d)) ->
   exists docs tr', load_merge_request_data w g pid mr ff tr = (Ok docs, tr')) /\
  (forall c, retained ff c = true <-> Retained ff c) /\
  (forall c, deleted_file c = true -> ~ In c (filter (retained ff) (changes_of d))) /\
  (ff = None \/ ff = Some [] ->
   filter (retained ff) (changes_of d) =
   filter (fun c => negb (deleted_file c)) (changes_of d)).
Proof.
  intros Hfetch. destruct (fetch_mr_changes_quoted _ _ _ _ _ _ _ Hfetch) as [sid Hq].
  split; [| split; [| split; [| split]]].
  - intros docs tr' H.
    exact (unit_paths _ _ _ _ _ _ (load_units w g pid mr ff tr tr1 d sid Hfetch Hq docs tr' H)).
  - exact (load_returns w g pid mr ff tr tr1 d Hfetch).
  - intros c. apply retained_iff.
  - intros c Hd Hin. apply filter_In in Hin as [_ Hr]. unfold retained in Hr.
    rewrite Hd in Hr. discriminate.
  - intros [-> | ->]; apply filter_ext; intros c; unfold retained; apply andb_true_r.
Qed.

Lemma units_follow_retained_changes_witness :
  fetch_mr_changes (sample_world 200 sample_changes 200) (gitlab_url sample_args)
                   (project_id sample_args) (mr_id sample_args) [] =
  (Ok (sample_data sample_changes),
   snd (fetch_mr_changes (sample_world 200 sample_changes 200) (gitlab_url sample_args)
                         (project_id sample_args) (mr_id sample_args) [])) /\
  forall docs tr',
    load_merge_request_data (sample_world 200 sample_changes 200) (gitlab_url sample_args)
                            (project_id sample_args) (mr_id sample_args)
                            (Some target_extensions) [] = (Ok docs, tr') ->
    map metadata_source docs =
    map new_path (filter (retained (Some target_extensions))
                         (changes_of (sample_data sample_changes))).
Proof.
  assert (H : fetch_mr_changes (sample_world 200 sample_changes 200) (gitlab_url sample_args)
                               (project_id sample_args) (mr_id sample_args) [] =
              (Ok (sample_data sample_changes),
               snd (fetch_mr_changes (sample_world 200 sample_changes 200)
                                     (gitlab_url sample_args) (project_id sample_args)
                                     (mr_id sample_args) [])))
    by (vm_compute; reflexivity).
  split; [exact H |].
  exact (proj1 (units_follow_retained_changes _ _ _ _ (Some target_extensions) _ _ _ H)).
Defined.

Lemma content_section_holds (full : str) : substring full (content_section full).
Proof.
  exists (lit "--- BEGIN FULL FILE CONTENT (CONTEXT) ---" ++ nl),
         (nl ++ lit "--- END FULL FILE CONTENT ---" ++ nl).
  unfold content_section. now rewrite <- !app_assoc.
Qed.

Lemma unit_holds_content (w : World) (g sid : str) (sb : option str)
      (c : Change) (d : Document) :
  unit_of w g sid sb c d ->
  exists sp tr0 r,
    Urllib.quote (new_path c) = Some sp /\
    http w tr0 (raw_file_url g sid sp (format_opt sb)) (private_token w) = Replied r /\
    substring (content_of r) (page_content d).
Proof.
  intros (_ & sp & tr0 & r & Hq & Hr & Hbody). exists sp, tr0, r.
  repeat split; [exact Hq | exact Hr |].
  destruct (content_section_holds (content_of r)) as (a & b & Hab).
  exists (header_line (new_path c) ++ diff_section (diff c) ++ nl ++ a), b.
  rewrite Hbody, Hab. now rewrite <- !app_assoc.
Qed.

(** C4 as stated does not hold: a response with status 203, a success
    status, and the body "print(1)" does not give the body but the
    placeholder. *)
Lemma fetch_raw_file_success_counterexample :
  (200 <= 203 < 300)%Z /\
  fst (fetch_raw_file (sample_world 200 sample_changes 203) (lit "https://gitlab.example.com/")
                      (lit "team/app") (lit "src/app.py") (lit "feature") []) =
  Ok (lit "[Error fetching file content: 203]") /\
  lit "[Error fetching file content: 203]" <> lit "print(1)".
Proof.
  split; [lia |]. split; [vm_compute; reflexivity | discriminate].
Qed.

(** C4, amended: whatever the status of the response, [fetch_raw_file] does
    not raise (it raises only when a path has no UTF-8 encoding or when the
    platform gives no response); it returns the body when the status is 200 and the placeholder
    "[Error fetching file content: s]" for every other status s, thus for
    every status that is not a success and also for the success statuses
    other than 200.  In the assembler a file whose fetch got such a status,
    404 for one, has the placeholder in the body of its unit, and every
    retained change still gets its unit. *)
Theorem fetch_raw_file_placeholder (w : World) :
  (forall g pid path ref tr tr' e,
      fetch_raw_file w g pid path ref tr = (Raise e, tr') ->
      e = UnicodeEncodeError \/
      e = RequestException /\ exists url, http w tr url (private_token w) = Failed) /\
  (forall g pid sid path sp ref tr r,
      Urllib.quote pid = Some sid -> Urllib.quote path = Some sp ->
      http w tr (raw_file_url g sid sp ref) (private_token w) = Replied r ->
      fetch_raw_file w g pid path ref tr =
      (Ok (if (status_code r =? 200)%Z then text r
           else lit "[Error fetching file content: " ++ of_int (status_code r) ++ lit "]"),
       tr ++ [HttpGet (raw_file_url g sid sp ref) (private_token w)])) /\
  (forall g pid mr ff tr tr1 d,
      fetch_mr_changes w g pid mr tr = (Ok d, tr1) ->
      responsive w ->
      Forall (fun c => encodable (new_path c)) (filter (retained ff) (changes_of d)) ->
      exists sid docs tr',
        Urllib.quote pid = Some sid /\
        load_merge_request_data w g pid mr ff tr = (Ok docs, tr') /\
        Forall2 (fun c u =>
                   exists sp tr0 r,
                     Urllib.quote (new_path c) = Some sp /\
                     http w tr0 (raw_file_url g sid sp (format_opt (source_branch d)))
                          (private_token w) = Replied r /\
                     (status_code r = 404%Z ->
                      substring (lit "[Error fetching file content: 404]") (page_content u)) /\
                     (status_code r <> 200%Z ->
                      substring (sentinel (status_code r)) (page_content u)))
                (filter (retained ff) (changes_of d)) docs).
Proof.
  split; [| split].
  - intros g pid path ref tr tr' e. apply fetch_raw_file_raises.
  - intros g pid sid path sp ref tr r Hp Hf Hr.
    exact (fetch_raw_file_reply w g pid path ref sid sp tr r Hp Hf Hr).
  - intros g pid mr ff tr tr1 d Hfetch Hw Henc.
    destruct (fetch_mr_changes_quoted _ _ _ _ _ _ _ Hfetch) as [sid Hq].
    destruct (load_returns w g pid mr ff tr tr1 d Hfetch Hw Henc) as (docs & tr' & Hload).
    exists sid, docs, tr'. split; [exact Hq | split; [exact Hload |]].
    pose proof (load_units w g pid mr ff tr tr1 d sid Hfetch Hq docs tr' Hload) as HF.
    revert HF. apply Forall2_impl. intros c u Hu.
    destruct (unit_holds_content _ _ _ _ _ _ Hu) as (sp & tr0 & r & Hsp & Hr & Hsub).
    exists sp, tr0, r. repeat split; [exact Hsp | exact Hr | |].
    + intros H404. unfold content_of in Hsub. rewrite H404 in Hsub. exact Hsub.
    + intros Hne. unfold content_of in Hsub.
      apply Z.eqb_neq in Hne. now rewrite Hne in Hsub.
Qed.

Lemma fetch_raw_file_placeholder_witness :
  fetch_raw_file (sample_world 200 sample_changes 404) (lit "https://gitlab.example.com/")
                 (lit "team/app") (lit "src/app.py") (lit "feature") [] =
  (Ok (lit "[Error fetching file content: 404]"),
   [HttpGet (lit "https://gitlab.example.com/api/v4/projects/team%2Fapp/repository/files/src%2Fapp.py/raw?ref=feature")
            (lit "glpat-secret")]).
Proof.
  refine (proj1 (proj2 (fetch_raw_file_placeholder (sample_world 200 sample_changes 404)))
                (lit "https://gitlab.example.com/") (lit "team/app") (lit "team%2Fapp")
                (lit "src/app.py") (lit "src%2Fapp.py") (lit "feature") []
                {| status_code := 404; text := lit "print(1)"; json := None |} _ _ _);
    vm_compute; reflexivity.
Defined.

(** C5: when the platform answers the metadata request with a status other
    than 200, [fetch_mr_changes] raises an error whose message carries the
    status and the response body, and the run ends with that error after a
    single request: nothing is retried, no raw file is asked for, the model
    is not invoked. *)
Theorem metadata_failure_aborts (w : World) (ucd_upper : cp -> str) (args : Args)
        (tr : list event) (sid : str) (r : Response) :
  Urllib.quote (project_id args) = Some sid ->
  http w ((tr ++ [Print (starting_line args)]) ++
          [Print (fetching_line (changes_url (gitlab_url args) sid (mr_id args)))])
       (changes_url (gitlab_url args) sid (mr_id args)) (private_token w) = Replied r ->
  status_code r <> 200%Z ->
  fetch_mr_changes w (gitlab_url args) (project_id args) (mr_id args)
                   (tr ++ [Print (starting_line args)]) =
  (Raise (Exception (lit "Failed to fetch MR: " ++ of_int (status_code r) ++
                     lit " - " ++ text r)),
   tr ++ [Print (starting_line args);
          Print (fetching_line (changes_url (gitlab_url args) sid (mr_id args)));
          HttpGet (changes_url (gitlab_url args) sid (mr_id args)) (private_token w)]) /\
  run_mr_review w ucd_upper args tr =
  (Raise (Exception (lit "Failed to fetch MR: " ++ of_int (status_code r) ++
                     lit " - " ++ text r)),
   tr ++ [Print (starting_line args);
          Print (fetching_line (changes_url (gitlab_url args) sid (mr_id args)));
          HttpGet (changes_url (gitlab_url args) sid (mr_id args)) (private_token w)]).
Proof.
  intros Hq Hr Hne.
  pose proof (fetch_mr_changes_reply w (gitlab_url args) (project_id args) (mr_id args) sid
                                     (tr ++ [Print (starting_line args)]) r Hq Hr) as Hfetch.
  apply Z.eqb_neq in Hne. rewrite Hne in Hfetch. cbn [negb] in Hfetch.
  rewrite <- app_assoc in Hfetch. cbn [app] in Hfetch.
  split; [exact Hfetch |].
  unfold run_mr_review. unfold bind at 1. unfold print, emit.
  fold (starting_line args). unfold bind at 1.
  unfold load_merge_request_data. unfold bind at 1. now rewrite Hfetch.
Qed.

Lemma metadata_failure_aborts_witness :
  run_mr_review (sample_world 401 sample_changes 200) (fun c => [c]) sample_args [] =
  (Raise (Exception (lit "Failed to fetch MR: 401 - {}")),
   [Print (starting_line sample_args);
    Print (fetching_line (lit "https://gitlab.example.com/api/v4/projects/team%2Fapp/merge_requests/42/changes"));
    HttpGet (lit "https://gitlab.example.com/api/v4/projects/team%2Fapp/merge_requests/42/changes")
            (lit "glpat-secret")]).
Proof.
  refine (proj2 (metadata_failure_aborts (sample_world 401 sample_changes 200) (fun c => [c])
                   sample_args [] (lit "team%2Fapp")
                   {| status_code := 401; text := lit "{}";
                      json := Some (sample_data sample_changes) |} _ _ _)).
  - vm_compute. reflexivity.
  - vm_compute. reflexivity.
  - discriminate.
Defined.

(** C6: the body of the unit of a retained change is the line
    "FILENAME: " with the new path, the diff between the lines
    "--- BEGIN DIFF (CHANGES) ---" and "--- END DIFF ---", an empty line, and
    the fetched content or the placeholder between the lines
    "--- BEGIN FULL FILE CONTENT (CONTEXT) ---" and
    "--- END FULL FILE CONTENT ---".  Whether a change is retained does not
    depend on its diff, and an empty diff gives an empty diff section. *)
Theorem unit_body_layout (w : World) (g pid mr : str) (ff : option (list str))
        (tr tr1 : list event) (d : MRData) :
  fetch_mr_changes w g pid mr tr = (Ok d, tr1) ->
  (exists sid,
      Urllib.quote pid = Some sid /\
      forall docs tr',
        load_merge_request_data w g pid mr ff tr = (Ok docs, tr') ->
        Forall2 (fun c u =>
                   exists sp tr0 r,
                     Urllib.quote (new_path c) = Some sp /\
                     http w tr0 (raw_file_url g sid sp (format_opt (source_branch d)))
                          (private_token w) = Replied r /\
                     page_content u =
                     lit "FILENAME: " ++ new_path c ++ nl ++
                     (lit "--- BEGIN DIFF (CHANGES) ---" ++ nl ++ diff c ++ nl ++
                      lit "--- END DIFF ---" ++ nl) ++
                     nl ++
                     (lit "--- BEGIN FULL FILE CONTENT (CONTEXT) ---" ++ nl ++
                      (if (status_code r =? 200)%Z then text r
                       else lit "[Error fetching file content: " ++
                            of_int (status_code r) ++ lit "]") ++ nl ++
                      lit "--- END FULL FILE CONTENT ---" ++ nl))
                (filter (retained ff) (changes_of d)) docs) /\
  (responsive w ->
   Forall (fun c => encodable (new_path c)) (filter (retained ff) (changes_of d)) ->
   exists docs tr', load_merge_request_data w g pid mr ff tr = (Ok docs, tr')) /\
  (forall c c', new_path c' = new_path c -> deleted_file c' = deleted_file c ->
                retained ff c' = retained ff c) /\
  (forall c, diff c = [] ->
             diff_section (diff c) =
             lit "--- BEGIN DIFF (CHANGES) ---" ++ nl ++ nl ++ lit "--- END DIFF ---" ++ nl).
Proof.
  intros Hfetch. split; [| split; [| split]].
  - destruct (fetch_mr_changes_quoted _ _ _ _ _ _ _ Hfetch) as [sid Hq].
    exists sid. split; [exact Hq |]. intros docs tr' Hload.
    pose proof (load_units w g pid mr ff tr tr1 d sid Hfetch Hq docs tr' Hload) as HF.
    revert HF. apply Forall2_impl.
    intros c u (_ & sp & tr0 & r & Hsp & Hr & Hbody).
    exists sp, tr0, r. repeat split; [exact Hsp | exact Hr |].
    rewrite Hbody. unfold header_line, diff_section, content_section, content_of, sentinel.
    now rewrite <- !app_assoc.
  - exact (load_returns w g pid mr ff tr tr1 d Hfetch).
  - intros c c' Hp Hd. unfold retained. now rewrite Hp, Hd.
  - intros c Hc. now rewrite Hc.
Qed.

Lemma unit_body_layout_witness :
  exists docs tr',
    load_merge_request_data (sample_world 200 sample_changes 200) (gitlab_url sample_args)
                            (project_id sample_args) (mr_id sample_args)
                            (Some target_extensions) [] = (Ok docs, tr').
Proof.
  refine (proj1 (proj2 (unit_body_layout (sample_world 200 sample_changes 200)
                          (gitlab_url sample_args) (project_id sample_args)
                          (mr_id sample_args) (Some target_extensions) []
                          (snd (fetch_mr_changes (sample_world 200 sample_changes 200)
                                  (gitlab_url sample_args) (project_id sample_args)
                                  (mr_id sample_args) []))
                          (sample_data sample_changes) _)) _ _).
  - vm_compute. reflexivity.
  - intros tr url token H. cbn [http sample_world] in H.
    destruct (endswith url (lit "/changes")); discriminate H.
  - vm_compute. repeat constructor.
Defined.

Lemma join_newline_separated (bodies : list str) :
  join nl bodies = newline_separated bodies.
Proof.
  destruct bodies as [|b rest]; [reflexivity |]. revert b.
  induction rest as [|b' rest IH]; intros b.
  - simpl. apply app_nil_r.
  - change (newline_separated (b :: b' :: rest))
      with (b ++ nl ++ newline_separated (b' :: rest)).
    rewrite <- (IH b'). cbn [join flat_map]. now rewrite <- app_assoc.
Qed.

(** C7: [format_documents_for_context] returns the bodies of the units in
    order with one line feed between neighbours and nothing else, so its
    length is that of the bodies plus one per gap; two calls on the same
    units give the same text, byte for byte. *)
Theorem format_joins_bodies (docs : list Document) :
  format_documents_for_context docs = newline_separated (map page_content docs) /\
  List.length (format_documents_for_context docs) =
  list_sum (map (fun u => List.length (page_content u)) docs) + (List.length docs - 1) /\
  Urllib.utf8_encode (format_documents_for_context docs) =
  Urllib.utf8_encode (format_documents_for_context docs).
Proof.
  split; [apply join_newline_separated | split; [| reflexivity]].
  unfold format_documents_for_context. destruct docs as [|u rest]; [reflexivity |].
  cbn [map join]. rewrite length_app.
  assert (H : List.length (flat_map (fun y => nl ++ y) (map page_content rest)) =
              list_sum (map (fun u => List.length (page_content u)) rest) + List.length rest).
  { induction rest as [|u' rest IH]; [reflexivity |].
    cbn [map flat_map]. rewrite !length_app, IH. simpl. lia. }
  rewrite H. simpl. lia.
Qed.

(** C8: when the assembler returns no unit, the run prints the line
    "No matching files found in this MR." and returns; from its start to its
    end it only printed and sent requests: the model was not invoked and no
    report was written. *)
Theorem no_units_short_circuit (w : World) (ucd_upper : cp -> str) (args : Args)
        (tr tr1 : list event) :
  load_merge_request_data w (gitlab_url args) (project_id args) (mr_id args)
                          (Some target_extensions) (tr ++ [Print (starting_line args)]) =
  (Ok [], tr1) ->
  run_mr_review w ucd_upper args tr =
  (Ok tt, tr1 ++ [Print ([0x274C%N] ++ lit " No matching files found in this MR.")]) /\
  exists evs,
    tr1 ++ [Print ([0x274C%N] ++ lit " No matching files found in this MR.")] = tr ++ evs /\
    Forall client_event evs /\
    (forall c, ~ In (ModelInvoke c) evs) /\
    (forall p data, ~ In (FileWrite p data) evs).
Proof.
  intros Hload. split.
  - unfold run_mr_review. unfold bind at 1. unfold print at 1. unfold emit at 1.
    fold (starting_line args). unfold bind at 1. rewrite Hload. reflexivity.
  - destruct (only_emits_load w (gitlab_url args) (project_id args) (mr_id args)
                (Some target_extensions) (tr ++ [Print (starting_line args)]))
      as (evs & Hevs & HF).
    rewrite Hload in Hevs. cbn [snd] in Hevs.
    assert (HF' : Forall client_event
                    (Print (starting_line args) :: evs ++
                     [Print ([0x274C%N] ++ lit " No matching files found in this MR.")])).
    { constructor; [exact I |]. apply Forall_app. split; [exact HF |].
      constructor; [exact I | constructor]. }
    eexists. split; [| split; [exact HF' | split]].
    + rewrite Hevs, <- !app_assoc. reflexivity.
    + intros c Hin. rewrite Forall_forall in HF'. exact (HF' _ Hin).
    + intros p data Hin. rewrite Forall_forall in HF'. exact (HF' _ Hin).
Qed.

Lemma no_units_short_circuit_witness :
  run_mr_review (sample_world 200 [ {| new_path := lit "README.md"; deleted_file := false;
                                       diff := lit "@@ -1 +1 @@" |};
                                    {| new_path := lit "old/gone.py"; deleted_file := true;
                                       diff := [] |} ] 200)
                (fun c => [c]) sample_args [] =
  (Ok tt,
   [Print (starting_line sample_args);
    Print (fetching_line (lit "https://gitlab.example.com/api/v4/projects/team%2Fapp/merge_requests/42/changes"));
    HttpGet (lit "https://gitlab.example.com/api/v4/projects/team%2Fapp/merge_requests/42/changes")
            (lit "glpat-secret");
    Print ([0x2705%N] ++ lit " Found 2 changed files in MR !42")] ++
   [Print ([0x274C%N] ++ lit " No matching files found in this MR.")]).
Proof.
  refine (proj1 (no_units_short_circuit _ (fun c => [c]) sample_args [] _ _)).
  vm_compute. reflexivity.
Defined.

End Pipeline.

(** ** Credentials *)

Module CredentialsFacts.
Import Credentials PyStrFacts.

Lemma env_missing_set (env : Env) (k v : str) :
  env_missing (env_set env k v) k = match v with [] => true | _ :: _ => false end.
Proof.
  unfold env_missing, env_set.
  assert (H : eqb k k = true) by now apply eqb_spec.
  now rewrite H.
Qed.

Lemma gitlab_after_google (env : Env) (v : str) :
  env_set env (lit "GOOGLE_API_KEY") v (lit "GITLAB_PRIVATE_TOKEN") =
  env (lit "GITLAB_PRIVATE_TOKEN").
Proof. reflexivity. Qed.

(** X1: after [setup_environment] the GitLab token is set, so that
    [get_gitlab_headers] does not fail with a missing variable: the header
    holds the value found in the environment when there was one that was not
    empty, and the text typed at the prompt otherwise. *)
Theorem setup_provides_token (getpass : str -> str) (use_local : bool) (env : Env) :
  get_gitlab_headers (fst (setup_environment getpass use_local env)) =
  Some [(lit "PRIVATE-TOKEN",
         match env (lit "GITLAB_PRIVATE_TOKEN") with
         | Some (c :: t) => c :: t
         | _ => getpass (lit "Enter GitLab Private Token: ")
         end)].
Proof.
  unfold setup_environment.
  destruct (negb use_local); [destruct (env_missing env (lit "GOOGLE_API_KEY")) |];
    unfold env_missing; rewrite ?gitlab_after_google;
    destruct (env (lit "GITLAB_PRIVATE_TOKEN")) as [[|c t]|] eqn:E;
    cbn [fst]; unfold get_gitlab_headers;
    rewrite ?gitlab_after_google, ?E; reflexivity.
Qed.

(** X2: [setup_environment] never overwrites a variable that holds a value
    that is not empty, and touches no variable but the two keys. *)
Theorem setup_keeps_variables (getpass : str -> str) (use_local : bool) (env : Env)
        (k : str) :
  env_missing env k = false \/
  (k <> lit "GOOGLE_API_KEY" /\ k <> lit "GITLAB_PRIVATE_TOKEN") ->
  fst (setup_environment getpass use_local env) k = env k.
Proof.
  intros Hk.
  assert (Hset : forall e key v, (env_missing e key = true -> k <> key) ->
                                 (if env_missing e key then env_set e key v else e) k = e k).
  { intros e key v Hne. destruct (env_missing e key); [| reflexivity].
    unfold env_set. destruct (eqb k key) eqn:E; [| reflexivity].
    apply eqb_spec in E. now elim Hne. }
  assert (Hne : forall e key, e k = env k -> env_missing e key = true ->
                              key = lit "GOOGLE_API_KEY" \/ key = lit "GITLAB_PRIVATE_TOKEN" ->
                              k <> key).
  { intros e key He Hm Hkey ->. destruct Hk as [Hk | [H1 H2]].
    - unfold env_missing in *. rewrite He in Hm. congruence.
    - destruct Hkey; congruence. }
  unfold setup_environment.
  destruct (negb use_local).
  - pose proof (Hset env (lit "GOOGLE_API_KEY") (getpass (lit "Enter Google AI API Key: "))
                     (fun Hm => Hne env _ eq_refl Hm (or_introl eq_refl))) as H1.
    destruct (env_missing env (lit "GOOGLE_API_KEY")) eqn:Eg.
    + pose proof (Hset (env_set env (lit "GOOGLE_API_KEY") (getpass (lit "Enter Google AI API Key: ")))
                       (lit "GITLAB_PRIVATE_TOKEN") (getpass (lit "Enter GitLab Private Token: "))
                       (fun Hm => Hne _ _ H1 Hm (or_intror eq_refl))) as H2.
      destruct (env_missing _ (lit "GITLAB_PRIVATE_TOKEN")); cbn [fst];
        [rewrite H2 |]; exact H1.
    + pose proof (Hset env (lit "GITLAB_PRIVATE_TOKEN") (getpass (lit "Enter GitLab Private Token: "))
                       (fun Hm => Hne env _ eq_refl Hm (or_intror eq_refl))) as H2.
      destruct (env_missing env (lit "GITLAB_PRIVATE_TOKEN")); cbn [fst]; exact H2.
  - pose proof (Hset env (lit "GITLAB_PRIVATE_TOKEN") (getpass (lit "Enter GitLab Private Token: "))
                     (fun Hm => Hne env _ eq_refl Hm (or_intror eq_refl))) as H2.
    destruct (env_missing env (lit "GITLAB_PRIVATE_TOKEN")); cbn [fst]; exact H2.
Qed.

Lemma setup_keeps_variables_witness :
  fst (setup_environment (fun _ => lit "typed") false
         (fun k => if eqb k (lit "GITLAB_PRIVATE_TOKEN") then Some (lit "glpat-1") else None))
      (lit "GITLAB_PRIVATE_TOKEN") = Some (lit "glpat-1").
Proof.
  refine (setup_keeps_variables (fun _ => lit "typed") false
            (fun k => if eqb k (lit "GITLAB_PRIVATE_TOKEN") then Some (lit "glpat-1") else None)
            (lit "GITLAB_PRIVATE_TOKEN") _).
  left. reflexivity.
Defined.

(** With the variables a run needs set and not empty, nothing is asked and
    nothing changes. *)
Lemma setup_silent (getpass : str -> str) (use_local : bool) (env : Env) :
  env_missing env (lit "GITLAB_PRIVATE_TOKEN") = false ->
  use_local = true \/ env_missing env (lit "GOOGLE_API_KEY") = false ->
  setup_environment getpass use_local env = (env, []).
Proof.
  intros Hg Hl. unfold setup_environment.
  destruct Hl as [-> | Hl]; cbn [negb].
  - now rewrite Hg.
  - destruct (negb use_local); [rewrite Hl |]; now rewrite Hg.
Qed.

Lemma setup_fst (getpass : str -> str) (use_local : bool) (env : Env) :
  fst (setup_environment getpass use_local env) =
  let env1 :=
    if negb use_local
    then if env_missing env (lit "GOOGLE_API_KEY")
         then env_set env (lit "GOOGLE_API_KEY") (getpass (lit "Enter Google AI API Key: "))
         else env
    else env in
  if env_missing env1 (lit "GITLAB_PRIVATE_TOKEN")
  then env_set env1 (lit "GITLAB_PRIVATE_TOKEN") (getpass (lit "Enter GitLab Private Token: "))
  else env1.
Proof.
  unfold setup_environment.
  destruct (negb use_local); [destruct (env_missing env (lit "GOOGLE_API_KEY")) |];
    cbv zeta;
    match goal with
    | |- context [if ?c then _ else _] => destruct c
    end; reflexivity.
Qed.

(** X3: when what is typed at a prompt is never empty, a second call of
    [setup_environment] on the environment the first one left asks nothing
    and changes nothing. *)
Theorem setup_twice (getpass : str -> str) (use_local : bool) (env : Env) :
  (forall prompt, getpass prompt <> []) ->
  setup_environment getpass use_local (fst (setup_environment getpass use_local env)) =
  (fst (setup_environment getpass use_local env), []).
Proof.
  intros Hp.
  assert (Hstep : forall e k v,
             v <> [] -> env_missing (if env_missing e k then env_set e k v else e) k = false).
  { intros e k v Hv. destruct (env_missing e k) eqn:E; [| exact E].
    rewrite env_missing_set. destruct v; congruence. }
  assert (Hgoogle : forall e v,
             env_missing (env_set e (lit "GITLAB_PRIVATE_TOKEN") v) (lit "GOOGLE_API_KEY") =
             env_missing e (lit "GOOGLE_API_KEY")) by reflexivity.
  apply setup_silent; rewrite setup_fst; cbv zeta.
  - apply Hstep, Hp.
  - destruct use_local; [now left | right]. cbn [negb].
    match goal with
    | |- env_missing (if ?c then _ else _) _ = _ => destruct c
    end; [rewrite Hgoogle |]; apply Hstep, Hp.
Qed.

Lemma setup_twice_witness :
  setup_environment (fun _ => lit "typed") false
    (fst (setup_environment (fun _ => lit "typed") false (fun _ => None))) =
  (fst (setup_environment (fun _ => lit "typed") false (fun _ => None)), []).
Proof.
  refine (setup_twice (fun _ => lit "typed") false (fun _ => None) _).
  intros prompt. discriminate.
Defined.

End CredentialsFacts.

(** ** More on the verdict extractor *)

Module VerdictMore.
Import Re ReFacts PyStrFacts MarkerFacts Verdict.

Lemma toupper_ci (ucd_upper : cp -> str) (p x : cp) :
  ucd_upper 0x17F%N = [0x53%N] ->
  is_ascii_upper p = true -> p <> 0x49%N -> p <> 0x4B%N ->
  lit_ignorecase p x = true -> toupper_full ucd_upper x = [p].
Proof.
  intros Hs Hp Hi Hk H. unfold lit_ignorecase in H. rewrite Hp, orb_true_r in H.
  unfold ascii_tolower in H. rewrite Hp in H.
  unfold is_ascii_upper in Hp. apply andb_true_iff in Hp as [Hlo Hhi].
  apply N.leb_le in Hlo, Hhi.
  assert (Hnl : is_ascii_lower p = false).
  { unfold is_ascii_lower. apply andb_false_iff. left. apply N.leb_gt. lia. }
  unfold ascii_toupper in H. rewrite Hnl in H.
  apply orb_true_iff in H as [H | H]; [apply orb_true_iff in H as [H | H] |].
  - apply N.eqb_eq in H. subst x. unfold toupper_full.
    replace (p + 32 <? 128)%N with true by (symmetry; apply N.ltb_lt; lia).
    unfold ascii_toupper, is_ascii_lower.
    replace (97 <=? p + 32)%N with true by (symmetry; apply N.leb_le; lia).
    replace (p + 32 <=? 122)%N with true by (symmetry; apply N.leb_le; lia).
    cbn [andb]. f_equal. lia.
  - apply N.eqb_eq in H. subst x. unfold toupper_full.
    replace (p <? 128)%N with true by (symmetry; apply N.ltb_lt; lia).
    unfold ascii_toupper. now rewrite Hnl.
  - unfold ignorecase_extra in H.
    apply orb_true_iff in H as [H | H]; [apply orb_true_iff in H as [H | H] |];
      apply andb_true_iff in H as [Hl Hx]; apply N.eqb_eq in Hl.
    + exfalso. apply Hi. lia.
    + apply N.eqb_eq in Hx. subst x. assert (p = 0x53%N) as -> by lia. exact Hs.
    + exfalso. apply Hk. lia.
Qed.

Lemma upper_ci (ucd_upper : cp -> str) (ps w : str) :
  ucd_upper 0x17F%N = [0x53%N] ->
  Forall (fun p => is_ascii_upper p = true /\ p <> 0x49%N /\ p <> 0x4B%N) ps ->
  ci_eq ps w -> upper ucd_upper w = ps.
Proof.
  intros Hs Hps H. induction H as [|p x ps w Hx _ IH]; [reflexivity |].
  apply Forall_cons_iff in Hps as [(Hp & Hi & Hk) Hps].
  cbn [upper flat_map]. rewrite (toupper_ci ucd_upper p x Hs Hp Hi Hk Hx).
  cbn [app]. f_equal. now apply IH.
Qed.

Lemma upper_failed (ucd_upper : cp -> str) (w : str) :
  ci_eq (lit "FAILED") w -> upper ucd_upper w <> lit "PASSED".
Proof.
  intros H. inversion H as [|p x ps t Hx Ht]; subst.
  unfold lit_ignorecase in Hx. simpl in Hx. rewrite orb_false_r in Hx.
  apply orb_true_iff in Hx as [Hx | Hx]; apply N.eqb_eq in Hx; subst x; discriminate.
Qed.

(** X4: once a marker is found, the verdict depends on its status word
    alone, whatever else the reply holds (the phrases of the fall-back
    included): it is a pass exactly when the word is PASSED in some letter
    case, and a failure exactly when it is FAILED in some letter case.  The
    upper case of the long s, which the pattern takes for an s, is S. *)
Theorem verdict_follows_status_word (ucd_upper : cp -> str) (text pre m w post : str) :
  ucd_upper 0x17F%N = [0x53%N] ->
  first_marker text pre m w post ->
  (is_ok (parse_markdown_response ucd_upper {| content := text |}) = true <->
   ci_eq (lit "PASSED") w) /\
  (is_ok (parse_markdown_response ucd_upper {| content := text |}) = false <->
   ci_eq (lit "FAILED") w).
Proof.
  intros Hs Hf. rewrite (parse_with_first_marker ucd_upper _ _ _ _ _ Hf). cbn [is_ok].
  destruct Hf as (_ & (kw & ws & _ & _ & _ & Hw) & _).
  assert (Hpass : ci_eq (lit "PASSED") w -> eqb (upper ucd_upper w) (lit "PASSED") = true).
  { intros H. apply eqb_spec. apply upper_ci; [exact Hs | | exact H].
    repeat constructor; discriminate. }
  assert (Hfail : ci_eq (lit "FAILED") w -> eqb (upper ucd_upper w) (lit "PASSED") = false).
  { intros H. destruct (eqb (upper ucd_upper w) (lit "PASSED")) eqn:E; [| reflexivity].
    apply eqb_spec in E. now apply upper_failed in E. }
  split; split; intros H.
  - destruct Hw as [Hw | Hw]; [exact Hw |]. rewrite (Hfail Hw) in H. discriminate.
  - now apply Hpass.
  - destruct Hw as [Hw | Hw]; [| exact Hw]. rewrite (Hpass Hw) in H. discriminate.
  - now apply Hfail.
Qed.

Lemma verdict_follows_status_word_witness :
  is_ok (parse_markdown_response (fun c => if (c =? 0x17F)%N then [0x53%N] else [c])
           {| content := lit "CRITICAL BUG fixed." ++ nl ++ lit "final_status: Passed" |}) = true.
Proof.
  assert (Hs : search marker_head marker_group
                      (lit "CRITICAL BUG fixed." ++ nl ++ lit "final_status: Passed") =
               Some {| group0 := lit "final_status: Passed"; group1 := lit "Passed" |})
    by (vm_compute; reflexivity).
  destruct (search_Some _ _ Hs) as (pre & post & Hf). cbn [group0 group1] in Hf.
  refine (proj2 (proj1 (verdict_follows_status_word
                          (fun c => if (c =? 0x17F)%N then [0x53%N] else [c])
                          _ pre _ _ post _ Hf)) _).
  - reflexivity.
  - repeat constructor.
Defined.

Lemma join_length (sep p : str) (ps : list str) :
  List.length (join sep (p :: ps)) =
  List.length p + list_sum (map (@List.length cp) ps) + List.length ps * List.length sep.
Proof.
  cbn [join]. rewrite length_app. rewrite <- Nat.add_assoc. f_equal.
  induction ps as [|q ps IH]; [reflexivity |].
  cbn [flat_map map List.length Nat.mul]. rewrite !length_app, IH.
  change (list_sum (List.length q :: map (@List.length cp) ps))
    with (List.length q + list_sum (map (@List.length cp) ps)).
  lia.
Qed.

Lemma replace_removes (s old : str) :
  old <> [] -> contains old s = true ->
  List.length (replace s old []) + List.length old <= List.length s.
Proof.
  intros Hold Hc. destruct (replace_pieces old [] Hold s) as (p & ps & Hs & Hr & Hf).
  destruct ps as [|q ps].
  - exfalso. apply Forall_cons_iff in Hf as [Hp _]. cbn [join flat_map] in Hs.
    rewrite app_nil_r in Hs. subst p. congruence.
  - rewrite Hr. rewrite Hs at 1. rewrite !join_length. cbn [List.length Nat.mul].
    destruct old; [congruence | cbn [List.length]; lia].
Qed.

Lemma strip_length (s : str) : List.length (strip s) <= List.length s.
Proof.
  destruct (strip_spec s) as (l & r & Hs & _). rewrite Hs at 2.
  rewrite !length_app. lia.
Qed.

Lemma marker_length (m w : str) : Marker m w -> 19 <= List.length m.
Proof.
  intros (kw & ws & -> & Hk & _ & Hw).
  destruct (status_word_shape w Hw) as [Lw _]. apply ci_eq_length in Hk.
  rewrite !length_app, Hk, Lw. simpl. lia.
Qed.

(** X5: the report made of a reply with a marker neither begins nor ends
    with white space, and it is shorter than the reply by the length of the
    marker at least, which is nineteen characters or more. *)
Theorem report_trimmed (ucd_upper : cp -> str) (text pre m w post : str) :
  first_marker text pre m w post ->
  (forall c t, report (parse_markdown_response ucd_upper {| content := text |}) = c :: t ->
               isspace c = false) /\
  (forall c t, report (parse_markdown_response ucd_upper {| content := text |}) = t ++ [c] ->
               isspace c = false) /\
  List.length (report (parse_markdown_response ucd_upper {| content := text |})) +
  List.length m <= List.length text /\
  19 <= List.length m.
Proof.
  intros Hf. rewrite (parse_with_first_marker ucd_upper _ _ _ _ _ Hf). cbn [report].
  destruct Hf as (Ht & HM & _).
  destruct (strip_spec (replace text m [])) as (l & r & _ & _ & _ & Hhead & Hlast).
  split; [exact Hhead | split; [exact Hlast | split; [| exact (marker_length _ _ HM)]]].
  pose proof (strip_length (replace text m [])) as H1.
  assert (H2 : contains m text = true) by (apply contains_spec; now exists pre, post).
  pose proof (replace_removes text m (marker_nonempty _ _ HM) H2). lia.
Qed.

Lemma report_trimmed_witness :
  List.length (report (parse_markdown_response (fun c => [c])
                         {| content := lit "Nice work.  " ++ nl ++ lit "FINAL_STATUS:  PASSED" ++ nl |})) +
  List.length (lit "FINAL_STATUS:  PASSED") <=
  List.length (lit "Nice work.  " ++ nl ++ lit "FINAL_STATUS:  PASSED" ++ nl).
Proof.
  assert (Hs : search marker_head marker_group
                      (lit "Nice work.  " ++ nl ++ lit "FINAL_STATUS:  PASSED" ++ nl) =
               Some {| group0 := lit "FINAL_STATUS:  PASSED"; group1 := lit "PASSED" |})
    by (vm_compute; reflexivity).
  destruct (search_Some _ _ Hs) as (pre & post & Hf). cbn [group0 group1] in Hf.
  exact (proj1 (proj2 (proj2 (report_trimmed (fun c => [c]) _ pre _ _ post Hf)))).
Defined.

End VerdictMore.

(** ** More on the client *)

Module ClientMore.
Import PyStrFacts ClientFacts.

Lemma rstrip_by_last (p : cp -> bool) (s : str) (c : cp) :
  p c = true -> rstrip_by p (s ++ [c]) = rstrip_by p s.
Proof.
  intros Hc. unfold rstrip_by. rewrite rev_app_distr. cbn [rev app lstrip_by].
  now rewrite Hc.
Qed.

Lemma rstrip_trailing (g : str) (n : nat) :
  rstrip (g ++ repeat 0x2F%N n) (lit "/") = rstrip g (lit "/").
Proof.
  unfold rstrip. induction n as [|n IH].
  - cbn [repeat]. now rewrite app_nil_r.
  - cbn [repeat]. rewrite repeat_cons, app_assoc, rstrip_by_last; [exact IH | reflexivity].
Qed.

Lemma Forall_repeat (p : cp -> bool) (c : cp) (l : str) :
  (forall x, p x = true -> x = c) -> Forall (fun x => p x = true) l ->
  l = repeat c (List.length l).
Proof.
  intros Hp. induction 1 as [|x l Hx _ IH]; [reflexivity |].
  cbn [List.length repeat]. rewrite <- IH. now rewrite (Hp x Hx).
Qed.

Lemma slash_only (x : cp) : existsb (N.eqb x) (lit "/") = true -> x = 0x2F%N.
Proof.
  cbn. rewrite orb_false_r. apply N.eqb_eq.
Qed.

(** X6: the base URL is used without its trailing slashes: it is the
    stripped base followed by slashes only, the stripped base does not end
    with a slash, and the URLs of both endpoints start with the stripped base
    and a single slash. *)
Theorem base_url_stripped (g : str) :
  (exists k, g = rstrip g (lit "/") ++ repeat 0x2F%N k) /\
  (forall t, rstrip g (lit "/") <> t ++ [0x2F%N]) /\
  (forall sid mr, changes_url g sid mr =
                  rstrip g (lit "/") ++ lit "/api/v4/projects/" ++ sid ++
                  lit "/merge_requests/" ++ mr ++ lit "/changes") /\
  (forall sid sp ref, raw_file_url g sid sp ref =
                      rstrip g (lit "/") ++ lit "/api/v4/projects/" ++ sid ++
                      lit "/repository/files/" ++ sp ++ lit "/raw?ref=" ++ ref).
Proof.
  split; [| split; [| split; reflexivity]].
  - unfold rstrip, rstrip_by.
    destruct (lstrip_by_spec (fun c => existsb (N.eqb c) (lit "/")) (rev g)) as (l & Hl & Hf & _).
    exists (List.length l).
    rewrite <- (rev_involutive g) at 1. rewrite Hl at 1. rewrite rev_app_distr. f_equal.
    rewrite <- (length_rev l).
    apply Forall_repeat with (p := fun c => existsb (N.eqb c) (lit "/")).
    + exact slash_only.
    + apply Forall_rev. exact Hf.
  - intros t Ht. unfold rstrip, rstrip_by in Ht.
    destruct (lstrip_by_spec (fun c => existsb (N.eqb c) (lit "/")) (rev g)) as (l & _ & _ & Hh).
    apply (f_equal (@rev cp)) in Ht. rewrite rev_involutive, rev_app_distr in Ht.
    cbn [rev app] in Ht. specialize (Hh _ _ Ht). discriminate Hh.
Qed.

(** X7: slashes at the end of the base URL change nothing: with any
    number of them added, the two fetches and the assembler do the same,
    event for event. *)
Theorem trailing_slashes_ignored (w : World) (g pid mr : str) (n : nat) :
  (forall tr, fetch_mr_changes w (g ++ repeat 0x2F%N n) pid mr tr =
              fetch_mr_changes w g pid mr tr) /\
  (forall path ref tr, fetch_raw_file w (g ++ repeat 0x2F%N n) pid path ref tr =
                       fetch_raw_file w g pid path ref tr) /\
  (forall ff tr, load_merge_request_data w (g ++ repeat 0x2F%N n) pid mr ff tr =
                 load_merge_request_data w g pid mr ff tr).
Proof.
  assert (Hm : forall tr, fetch_mr_changes w (g ++ repeat 0x2F%N n) pid mr tr =
                          fetch_mr_changes w g pid mr tr).
  { intros tr. unfold fetch_mr_changes. now rewrite rstrip_trailing. }
  assert (Hr : forall path ref tr, fetch_raw_file w (g ++ repeat 0x2F%N n) pid path ref tr =
                                   fetch_raw_file w g pid path ref tr).
  { intros path ref tr. unfold fetch_raw_file. now rewrite rstrip_trailing. }
  assert (Hl : forall sb ff changes docs tr,
             load_changes w (g ++ repeat 0x2F%N n) pid sb ff changes docs tr =
             load_changes w g pid sb ff changes docs tr).
  { intros sb ff changes. induction changes as [|c rest IH]; intros docs tr;
      cbn [load_changes]; [reflexivity |].
    destruct (filtered_out ff (new_path c)); [apply IH |].
    destruct (deleted_file c); [apply IH |].
    unfold bind, print, emit. cbv beta iota. rewrite Hr.
    destruct (fetch_raw_file w g pid (new_path c) (format_opt sb) _)
      as [[full | e] tr3]; [apply IH | reflexivity]. }
  split; [exact Hm | split; [exact Hr |]].
  intros ff tr. unfold load_merge_request_data, bind, print, emit. rewrite Hm.
  destruct (fetch_mr_changes w g pid mr tr) as [[d | e] tr1]; [apply Hl | reflexivity].
Qed.

Lemma Some_eq {A} (x y : A) : Some x = Some y -> x = y.
Proof. congruence. Qed.

Lemma utf8_bytes (c : cp) (bs : list N) :
  valid_cp c -> Urllib.utf8_encode_cp c = Some bs -> Forall (fun b => (b < 256)%N) bs.
Proof.
  unfold valid_cp, Urllib.utf8_encode_cp. intros Hv.
  assert (Hm : forall x, (x mod 64 < 64)%N) by (intros x; apply N.mod_lt; discriminate).
  destruct (c <? 128)%N eqn:E1.
  { intros H. apply Some_eq in H. subst bs. apply N.ltb_lt in E1.
    apply Forall_cons; [lia | apply Forall_nil]. }
  destruct (c <? 2048)%N eqn:E2.
  { intros H. apply Some_eq in H. subst bs. apply N.ltb_lt in E2.
    assert (c / 64 < 32)%N by (apply N.Div0.div_lt_upper_bound; lia).
    pose proof (Hm c).
    repeat (apply Forall_cons; [lia |]). apply Forall_nil. }
  destruct ((55296 <=? c)%N && (c <=? 57343)%N); [discriminate |].
  destruct (c <? 65536)%N eqn:E3; intros H; apply Some_eq in H; subst bs.
  - apply N.ltb_lt in E3.
    assert (c / 4096 < 16)%N by (apply N.Div0.div_lt_upper_bound; lia).
    pose proof (Hm c). pose proof (Hm (c / 64)%N).
    repeat (apply Forall_cons; [lia |]). apply Forall_nil.
  - assert (c / 262144 < 5)%N by (apply N.Div0.div_lt_upper_bound; lia).
    pose proof (Hm c). pose proof (Hm (c / 64)%N). pose proof (Hm (c / 4096)%N).
    repeat (apply Forall_cons; [lia |]). apply Forall_nil.
Qed.

Lemma hex_digit_safe (d : N) : (d < 16)%N -> Urllib.always_safe (Urllib.hex_digit d) = true.
Proof.
  intros Hd.
  assert (H : In d [0; 1; 2; 3; 4; 5; 6; 7; 8; 9; 10; 11; 12; 13; 14; 15]%N).
  { cbn [In]. lia. }
  cbn [In] in H. repeat (destruct H as [<- | H]; [reflexivity |]). destruct H.
Qed.

Lemma quote_byte_safe (b : N) :
  (b < 256)%N ->
  Forall (fun c => Urllib.always_safe c = true \/ c = 0x25%N) (Urllib.quote_byte b).
Proof.
  intros Hb. unfold Urllib.quote_byte. destruct (Urllib.always_safe b) eqn:E.
  - apply Forall_cons; [now left | apply Forall_nil].
  - assert (b / 16 < 16)%N by (apply N.Div0.div_lt_upper_bound; lia).
    assert (b mod 16 < 16)%N by (apply N.mod_lt; discriminate).
    apply Forall_cons; [now right |].
    apply Forall_cons; [left; now apply hex_digit_safe |].
    apply Forall_cons; [left; now apply hex_digit_safe | apply Forall_nil].
Qed.

(** X8: what [quote] gives for a text of valid code points holds only the
    characters never quoted (letters, digits and [_.-~]) and the percent
    sign; in particular no slash, so that a project path or a file path stays
    one segment of the URL, and no question mark, hash or space. *)
Theorem quote_output_safe (s q : str) :
  Forall valid_cp s -> Urllib.quote s = Some q ->
  Forall (fun c => Urllib.always_safe c = true \/ c = 0x25%N) q /\
  ~ In 0x2F%N q /\ ~ In 0x3F%N q /\ ~ In 0x23%N q /\ ~ In 0x20%N q.
Proof.
  intros Hv Hq.
  assert (H : Forall (fun c => Urllib.always_safe c = true \/ c = 0x25%N) q).
  { unfold Urllib.quote in Hq. destruct (Urllib.utf8_encode s) as [bs|] eqn:Hb; [| discriminate].
    injection Hq as <-.
    assert (Hbs : Forall (fun b => (b < 256)%N) bs).
    { revert bs Hb. induction Hv as [|c s Hc _ IH]; intros bs Hb; cbn [Urllib.utf8_encode] in Hb.
      - injection Hb as <-. constructor.
      - destruct (Urllib.utf8_encode_cp c) as [b|] eqn:Ec; [| discriminate].
        destruct (Urllib.utf8_encode s) as [bs'|]; [| discriminate].
        injection Hb as <-. apply Forall_app. split; [exact (utf8_bytes c b Hc Ec) | now apply IH]. }
    clear Hb. induction Hbs as [|b bs Hb _ IH]; [constructor |].
    cbn [flat_map]. apply Forall_app. split; [now apply quote_byte_safe | exact IH]. }
  split; [exact H |].
  rewrite Forall_forall in H.
  repeat split; intros Hin; destruct (H _ Hin) as [Hs | Hs]; discriminate Hs.
Qed.

Lemma quote_output_safe_witness :
  ~ In 0x2F%N (lit "team%2Fapp").
Proof.
  refine (proj1 (proj2 (quote_output_safe (lit "team/app") (lit "team%2Fapp") _ _))).
  - repeat constructor.
  - vm_compute. reflexivity.
Defined.

Lemma safe_is_ascii (c : cp) : Urllib.always_safe c = true -> (c <? 128)%N = true.
Proof.
  unfold Urllib.always_safe, is_ascii_upper, is_ascii_lower. intros Hc.
  apply N.ltb_lt.
  repeat (apply orb_true_iff in Hc as [Hc | Hc]);
    try (apply andb_true_iff in Hc as [_ Hc]; apply N.leb_le in Hc; lia);
    apply N.eqb_eq in Hc; lia.
Qed.

Lemma utf8_safe_text (s : str) :
  Forall (fun c => Urllib.always_safe c = true) s -> Urllib.utf8_encode s = Some s.
Proof.
  induction 1 as [|c s Hc _ IH]; [reflexivity |].
  cbn [Urllib.utf8_encode]. rewrite IH.
  unfold Urllib.utf8_encode_cp. now rewrite (safe_is_ascii c Hc).
Qed.

Lemma quote_bytes_safe_text (s : str) :
  Forall (fun c => Urllib.always_safe c = true) s -> flat_map Urllib.quote_byte s = s.
Proof.
  induction 1 as [|c s Hc _ IH]; [reflexivity |].
  cbn [flat_map]. unfold Urllib.quote_byte at 1. rewrite Hc. cbn [app]. now f_equal.
Qed.

(** X9: a text made of letters, digits and [_.-~] only, a numeric project
    identifier for one, is sent as it is. *)
Theorem quote_safe_text (s : str) :
  Forall (fun c => Urllib.always_safe c = true) s -> Urllib.quote s = Some s.
Proof.
  intros H. unfold Urllib.quote. rewrite (utf8_safe_text s H). cbn [option_map].
  now rewrite (quote_bytes_safe_text s H).
Qed.

Lemma quote_safe_text_witness : Urllib.quote (lit "12345") = Some (lit "12345").
Proof.
  refine (quote_safe_text (lit "12345") _). repeat constructor.
Defined.

(** *** The requests of a run *)

Lemma token_requests_get (w : World) (url : str) :
  only_emits (carries_token w) (requests_get w url).
Proof.
  intros tr. exists [HttpGet url (private_token w)]. unfold requests_get.
  split; [now destruct (http w tr url (private_token w)) |].
  apply Forall_cons; [reflexivity | apply Forall_nil].
Qed.

Lemma token_quote (w : World) (s : str) : only_emits (carries_token w) (quote s).
Proof.
  unfold quote. destruct (Urllib.quote s); [apply only_emits_ret | apply only_emits_raise].
Qed.

Lemma token_fetch_mr_changes (w : World) (g pid mr : str) :
  only_emits (carries_token w) (fetch_mr_changes w g pid mr).
Proof.
  unfold fetch_mr_changes.
  apply only_emits_bind; [apply token_quote | intros sid].
  apply only_emits_bind; [now apply only_emits_emit | intros _].
  apply only_emits_bind; [apply token_requests_get | intros r].
  destruct (negb _); [apply only_emits_raise |].
  destruct (json r); [apply only_emits_ret | apply only_emits_raise].
Qed.

Lemma token_fetch_raw_file (w : World) (g pid path ref : str) :
  only_emits (carries_token w) (fetch_raw_file w g pid path ref).
Proof.
  unfold fetch_raw_file.
  apply only_emits_bind; [apply token_quote | intros sid].
  apply only_emits_bind; [apply token_quote | intros sp].
  apply only_emits_bind; [apply token_requests_get | intros r].
  destruct (negb _); apply only_emits_ret.
Qed.

Lemma token_load (w : World) (g pid mr : str) (ff : option (list str)) :
  only_emits (carries_token w) (load_merge_request_data w g pid mr ff).
Proof.
  unfold load_merge_request_data.
  apply only_emits_bind; [apply token_fetch_mr_changes | intros d].
  apply only_emits_bind; [now apply only_emits_emit | intros _].
  generalize (@nil Document).
  induction (match changes_field d with Some l => l | None => [] end) as [|c rest IH];
    intros docs; cbn [load_changes]; [apply only_emits_ret |].
  destruct (filtered_out ff (new_path c)); [apply IH |].
  destruct (deleted_file c); [apply IH |].
  apply only_emits_bind; [now apply only_emits_emit | intros _].
  apply only_emits_bind; [apply token_fetch_raw_file | intros full].
  apply IH.
Qed.

(** X10: every request of a run, to either endpoint, carries the private
    token: no request is sent without it or with another one. *)
Theorem requests_carry_token (w : World) (ucd_upper : cp -> str) (args : Args)
        (tr : list event) :
  exists evs,
    snd (run_mr_review w ucd_upper args tr) = tr ++ evs /\
    forall url token, In (HttpGet url token) evs -> token = private_token w.
Proof.
  assert (H : only_emits (carries_token w) (run_mr_review w ucd_upper args)).
  { unfold run_mr_review.
    apply only_emits_bind; [now apply only_emits_emit | intros _].
    apply only_emits_bind; [apply token_load | intros docs].
    destruct docs as [|u us]; [now apply only_emits_emit |].
    apply only_emits_bind; [now apply only_emits_emit | intros _].
    apply only_emits_bind; [now apply only_emits_emit | intros _].
    apply only_emits_bind.
    - intros tr0. eexists [_]. split; [reflexivity |].
      apply Forall_cons; [exact I | apply Forall_nil].
    - intros [e | result]; [now apply only_emits_emit |].
      apply only_emits_bind; [now apply only_emits_emit | intros _].
      apply only_emits_bind; [now apply only_emits_emit | intros _].
      apply only_emits_bind; [now apply only_emits_emit | intros _].
      now apply only_emits_emit. }
  destruct (H tr) as (evs & Hevs & HF). exists evs. split; [exact Hevs |].
  intros url token Hin. rewrite Forall_forall in HF. exact (HF _ Hin).
Qed.

Lemma requested_urls_app (a b : list event) :
  requested_urls (a ++ b) = requested_urls a ++ requested_urls b.
Proof. unfold requested_urls. apply flat_map_app. Qed.

Lemma load_changes_requests (w : World) (g pid sid : str) (sb : option str)
      (ff : option (list str)) :
  Urllib.quote pid = Some sid ->
  forall changes docs tr out tr',
    load_changes w g pid sb ff changes docs tr = (Ok out, tr') ->
    exists evs,
      tr' = tr ++ evs /\
      Forall2 (fun c url => exists sp, Urllib.quote (new_path c) = Some sp /\
                                       url = raw_file_url g sid sp (format_opt sb))
              (filter (retained ff) changes) (requested_urls evs).
Proof.
  intros Hp. induction changes as [|c rest IH]; intros docs tr out tr' H.
  - cbn in H. injection H as _ <-. exists []. split; [now rewrite app_nil_r | constructor].
  - cbn [load_changes filter] in *. rewrite retained_code.
    destruct (filtered_out ff (new_path c)); [exact (IH _ _ _ _ H) |].
    destruct (deleted_file c); [exact (IH _ _ _ _ H) |].
    cbn [negb andb]. unfold bind at 1 in H. unfold print, emit in H. unfold bind at 1 in H.
    destruct (fetch_raw_file_cases w g pid (new_path c) (format_opt sb) sid
                (tr ++ [Print (lit "   " ++ [0x2B07%N; 0xFE0F%N] ++ lit "  Loading: " ++ new_path c)]) Hp)
      as [(sp & r & Hq & Hr & Hfetch) | (e & tr2 & Hfetch & He)];
      rewrite Hfetch in H; [| discriminate].
    apply IH in H as (evs & -> & HF).
    eexists (_ :: _ :: evs). split.
    + rewrite <- !app_assoc. reflexivity.
    + cbn [requested_urls flat_map app]. fold (requested_urls evs).
      constructor; [| exact HF]. now exists sp.
Qed.

(** X11: the assembler asks for the raw files of the retained changes, one
    request each, in the order of the change list, and for nothing else: a
    deleted or filtered change costs no request, and the units are as many
    as the requests. *)
Theorem requests_follow_changes (w : World) (g pid mr : str) (ff : option (list str))
        (tr tr1 tr' : list event) (d : MRData) (docs : list Document) :
  fetch_mr_changes w g pid mr tr = (Ok d, tr1) ->
  load_merge_request_data w g pid mr ff tr = (Ok docs, tr') ->
  exists sid evs,
    Urllib.quote pid = Some sid /\
    tr' = tr1 ++ evs /\
    Forall2 (fun c url => exists sp, Urllib.quote (new_path c) = Some sp /\
                                     url = raw_file_url g sid sp (format_opt (source_branch d)))
            (filter (retained ff) (changes_of d)) (requested_urls evs) /\
    List.length (requested_urls evs) = List.length docs.
Proof.
  intros Hfetch Hload.
  destruct (fetch_mr_changes_quoted _ _ _ _ _ _ _ Hfetch) as [sid Hq].
  pose proof (Pipeline.load_units w g pid mr ff tr tr1 d sid Hfetch Hq docs tr' Hload) as HU.
  rewrite (load_after_fetch w g pid mr ff tr tr1 d Hfetch) in Hload.
  destruct (load_changes_requests w g pid sid (source_branch d) ff Hq _ _ _ _ _ Hload)
    as (evs & Htr & HF).
  eexists sid, (_ :: evs). split; [exact Hq | split; [| split]].
  - rewrite Htr, <- app_assoc. reflexivity.
  - exact HF.
  - cbn [requested_urls flat_map app]. fold (requested_urls evs).
    rewrite <- (Forall2_length HF). exact (Forall2_length HU).
Qed.

Lemma requests_follow_changes_witness :
  exists sid evs,
    Urllib.quote (project_id sample_args) = Some sid /\
    snd (load_merge_request_data (sample_world 200 sample_changes 200) (gitlab_url sample_args)
           (project_id sample_args) (mr_id sample_args) (Some target_extensions) []) =
    snd (fetch_mr_changes (sample_world 200 sample_changes 200) (gitlab_url sample_args)
           (project_id sample_args) (mr_id sample_args) []) ++ evs /\
    List.length (requested_urls evs) = 2.
Proof.
  destruct (requests_follow_changes (sample_world 200 sample_changes 200)
              (gitlab_url sample_args) (project_id sample_args) (mr_id sample_args)
              (Some target_extensions) []
              (snd (fetch_mr_changes (sample_world 200 sample_changes 200)
                      (gitlab_url sample_args) (project_id sample_args)
                      (mr_id sample_args) []))
              (snd (load_merge_request_data (sample_world 200 sample_changes 200)
                      (gitlab_url sample_args) (project_id sample_args)
                      (mr_id sample_args) (Some target_extensions) []))
              (sample_data sample_changes)
              [ {| page_content := combined_content (lit "src/app.py") (lit "@@ -1 +1 @@") (lit "print(1)");
                   metadata_source := lit "src/app.py" |};
                {| page_content := combined_content (lit "web/main.js") [] (lit "print(1)");
                   metadata_source := lit "web/main.js" |} ])
    as (sid & evs & Hq & Htr & _ & Hlen).
  - vm_compute. reflexivity.
  - vm_compute. reflexivity.
  - exists sid, evs. split; [exact Hq | split; [exact Htr | exact Hlen]].
Defined.

(** X12: [fetch_mr_changes] returns data only from a response with status
    200 whose body decodes, after one line on the console and one request;
    with any other outcome it raises. *)
Theorem metadata_only_from_200 (w : World) (g pid mr : str) (tr tr' : list event)
        (d : MRData) :
  fetch_mr_changes w g pid mr tr = (Ok d, tr') ->
  exists sid r,
    Urllib.quote pid = Some sid /\
    http w (tr ++ [Print (fetching_line (changes_url g sid mr))]) (changes_url g sid mr)
         (private_token w) = Replied r /\
    status_code r = 200%Z /\ json r = Some d /\
    tr' = tr ++ [Print (fetching_line (changes_url g sid mr));
                 HttpGet (changes_url g sid mr) (private_token w)].
Proof.
  intros H. destruct (fetch_mr_changes_quoted _ _ _ _ _ _ _ H) as [sid Hq].
  destruct (http w (tr ++ [Print (fetching_line (changes_url g sid mr))]) (changes_url g sid mr)
                 (private_token w)) as [r|] eqn:Hr.
  - rewrite (fetch_mr_changes_reply w g pid mr sid tr r Hq Hr) in H.
    destruct (status_code r =? 200)%Z eqn:Es; cbn [negb] in H; [| discriminate].
    destruct (json r) as [d'|] eqn:Ej; [| discriminate].
    injection H as <- <-. exists sid, r.
    repeat split; [exact Hq | exact Hr | now apply Z.eqb_eq | exact Ej].
  - exfalso. unfold fetch_mr_changes, quote, bind, requests_get, print, emit in H.
    rewrite Hq in H. cbn [ret] in H.
    fold (changes_url g sid mr) in H. fold (fetching_line (changes_url g sid mr)) in H.
    rewrite Hr in H. discriminate.
Qed.

Lemma metadata_only_from_200_witness :
  exists sid r,
    Urllib.quote (project_id sample_args) = Some sid /\
    status_code r = 200%Z /\ json r = Some (sample_data sample_changes).
Proof.
  destruct (metadata_only_from_200 (sample_world 200 sample_changes 200)
              (gitlab_url sample_args) (project_id sample_args) (mr_id sample_args) []
              (snd (fetch_mr_changes (sample_world 200 sample_changes 200)
                      (gitlab_url sample_args) (project_id sample_args)
                      (mr_id sample_args) []))
              (sample_data sample_changes))
    as (sid & r & Hq & _ & Hs & Hj & _).
  - vm_compute. reflexivity.
  - exists sid, r. split; [exact Hq | split; [exact Hs | exact Hj]].
Defined.

End ClientMore.

(** ** More on the assembler, the formatter and the run *)

Module RunFacts.
Import PyStrFacts ClientFacts ClientMore.

Lemma load_changes_none (w : World) (g pid : str) (sb : option str) (ff : option (list str))
      (changes : list Change) (docs : list Document) (tr : list event) :
  filter (retained ff) changes = [] ->
  load_changes w g pid sb ff changes docs tr = (Ok docs, tr).
Proof.
  induction changes as [|c rest IH]; intros H; [reflexivity |].
  cbn [load_changes filter] in *. rewrite retained_code in H.
  destruct (filtered_out ff (new_path c)); [exact (IH H) |].
  destruct (deleted_file c); [exact (IH H) | discriminate H].
Qed.

Lemma snoc_snoc {A} (l : list A) (a b : A) : (l ++ [a]) ++ [b] = l ++ [a; b].
Proof. now rewrite <- app_assoc. Qed.

(** X13: when the payload holds no change to review (the key [changes] is
    missing, the list is empty, or every change is deleted or has another
    extension), the run sends no request but the first, prints the count and
    the line "No matching files found in this MR.", and returns. *)
Theorem nothing_to_review (w : World) (ucd_upper : cp -> str) (args : Args)
        (tr tr1 : list event) (d : MRData) :
  fetch_mr_changes w (gitlab_url args) (project_id args) (mr_id args)
                   (tr ++ [Print (starting_line args)]) = (Ok d, tr1) ->
  filter (retained (Some target_extensions)) (changes_of d) = [] ->
  run_mr_review w ucd_upper args tr =
  (Ok tt,
   tr1 ++ [Print ([0x2705%N] ++ lit " Found " ++ of_nat (List.length (changes_of d)) ++
                  lit " changed files in MR !" ++ mr_id args);
           Print no_matching_files_line]) /\
  (changes_field d = None \/ changes_field d = Some [] ->
   filter (retained (Some target_extensions)) (changes_of d) = []).
Proof.
  intros Hfetch Hnone. split.
  - unfold run_mr_review. unfold bind at 1. unfold print at 1. unfold emit at 1.
    fold (starting_line args). unfold bind at 1.
    rewrite (load_after_fetch w _ _ _ (Some target_extensions) _ tr1 d Hfetch).
    fold (changes_of d). rewrite (load_changes_none w _ _ _ _ _ _ _ Hnone).
    unfold print, emit, no_matching_files_line. now rewrite <- app_assoc.
  - unfold changes_of. now intros [-> | ->].
Qed.

Lemma nothing_to_review_witness :
  run_mr_review
    {| private_token := lit "glpat-secret";
       http := fun _ _ _ =>
                 Replied {| status_code := 200; text := lit "{}";
                            json := Some {| source_branch := None; changes_field := None |} |};
       chain_invoke := fun _ _ => inl (lit "unreachable") |}
    (fun c => [c]) sample_args [] =
  (Ok tt,
   [Print (starting_line sample_args);
    Print (fetching_line (lit "https://gitlab.example.com/api/v4/projects/team%2Fapp/merge_requests/42/changes"));
    HttpGet (lit "https://gitlab.example.com/api/v4/projects/team%2Fapp/merge_requests/42/changes")
            (lit "glpat-secret")] ++
   [Print ([0x2705%N] ++ lit " Found 0 changed files in MR !42");
    Print no_matching_files_line]).
Proof.
  refine (proj1 (nothing_to_review _ (fun c => [c]) sample_args [] _
                   {| source_branch := None; changes_field := None |} _ _)).
  - vm_compute. reflexivity.
  - reflexivity.
Defined.



(** X15: when the chain raises, the run prints the line
    "Error during analysis: " with the message of the exception and returns
    normally; it writes no file. *)
Theorem model_failure_reported (w : World) (ucd_upper : cp -> str) (args : Args)
        (tr tr1 : list event) (u : Document) (us : list Document) (msg : str) :
  load_merge_request_data w (gitlab_url args) (project_id args) (mr_id args)
                          (Some target_extensions) (tr ++ [Print (starting_line args)]) =
  (Ok (u :: us), tr1) ->
  chain_invoke w
    (tr1 ++ [Print ([0x1F4CA%N] ++ lit " Context size: ~" ++
                    of_nat (List.length (format_documents_for_context (u :: us)) / 4) ++
                    lit " tokens");
             Print ([0x1F9E0%N] ++ lit " Analyzing MR changes...")])
    (format_documents_for_context (u :: us)) = inl msg ->
  run_mr_review w ucd_upper args tr =
  (Ok tt,
   tr1 ++ [Print ([0x1F4CA%N] ++ lit " Context size: ~" ++
                  of_nat (List.length (format_documents_for_context (u :: us)) / 4) ++
                  lit " tokens");
           Print ([0x1F9E0%N] ++ lit " Analyzing MR changes...");
           ModelInvoke (format_documents_for_context (u :: us));
           Print ([0x274C%N] ++ lit " Error during analysis: " ++ msg)]) /\
  exists evs,
    snd (run_mr_review w ucd_upper args tr) = tr ++ evs /\
    forall path data, ~ In (FileWrite path data) evs.
Proof.
  intros Hload Hreply.
  assert (Hrun : run_mr_review w ucd_upper args tr =
                 (Ok tt,
                  tr1 ++ [Print ([0x1F4CA%N] ++ lit " Context size: ~" ++
                                 of_nat (List.length (format_documents_for_context (u :: us)) / 4) ++
                                 lit " tokens");
                          Print ([0x1F9E0%N] ++ lit " Analyzing MR changes...");
                          ModelInvoke (format_documents_for_context (u :: us));
                          Print ([0x274C%N] ++ lit " Error during analysis: " ++ msg)])).
  { unfold run_mr_review. unfold bind at 1. unfold print at 1. unfold emit at 1.
    fold (starting_line args). unfold bind at 1. rewrite Hload.
    unfold bind, print, emit, invoke_chain. cbv beta iota.
    rewrite (snoc_snoc tr1). rewrite Hreply.
    rewrite <- !app_assoc. reflexivity. }
  split; [exact Hrun |].
  destruct (only_emits_load w (gitlab_url args) (project_id args) (mr_id args)
              (Some target_extensions) (tr ++ [Print (starting_line args)]))
    as (evs & Hevs & HF).
  rewrite Hload in Hevs. cbn [snd] in Hevs.
  eexists (Print (starting_line args) :: evs ++ [_; _; _; _]). split.
  - rewrite Hrun. cbn [snd]. rewrite Hevs, <- !app_assoc. reflexivity.
  - intros path data Hin. rewrite Forall_forall in HF.
    destruct Hin as [Hin | Hin]; [discriminate |].
    apply in_app_iff in Hin as [Hin | Hin]; [exact (HF _ Hin) |].
    cbn [In] in Hin. repeat (destruct Hin as [Hin | Hin]; [discriminate |]). exact Hin.
Qed.

Lemma model_failure_reported_witness :
  exists evs,
    snd (run_mr_review
           {| private_token := lit "glpat-secret";
              http := http (sample_world 200 sample_changes 200);
              chain_invoke := fun _ _ => inl (lit "connection refused") |}
           (fun c => [c]) sample_args []) = [] ++ evs /\
    forall path data, ~ In (FileWrite path data) evs.
Proof.
  refine (proj2 (model_failure_reported
                   {| private_token := lit "glpat-secret";
                      http := http (sample_world 200 sample_changes 200);
                      chain_invoke := fun _ _ => inl (lit "connection refused") |}
                   (fun c => [c]) sample_args []
                   (snd (load_merge_request_data (sample_world 200 sample_changes 200)
                           (gitlab_url sample_args) (project_id sample_args)
                           (mr_id sample_args) (Some target_extensions)
                           [Print (starting_line sample_args)]))
                   {| page_content := combined_content (lit "src/app.py") (lit "@@ -1 +1 @@")
                                        (lit "print(1)");
                      metadata_source := lit "src/app.py" |}
                   [ {| page_content := combined_content (lit "web/main.js") [] (lit "print(1)");
                        metadata_source := lit "web/main.js" |} ]
                   (lit "connection refused") _ _)).
  - vm_compute. reflexivity.
  - reflexivity.
Defined.


(** X17: the assembler's loop works through the change list piece by
    piece: on two lists put end to end it does what it does on the first,
    then, from the units and the trace reached, what it does on the second;
    when the first part raises, the second is not begun. *)
Theorem load_changes_app (w : World) (g pid : str) (sb : option str)
        (ff : option (list str)) (cs1 cs2 : list Change) (docs : list Document)
        (tr : list event) :
  load_changes w g pid sb ff (cs1 ++ cs2) docs tr =
  match load_changes w g pid sb ff cs1 docs tr with
  | (Ok docs1, tr1) => load_changes w g pid sb ff cs2 docs1 tr1
  | (Raise e, tr1) => (Raise e, tr1)
  end.
Proof.
  revert docs tr. induction cs1 as [|c rest IH]; intros docs tr; [reflexivity |].
  cbn [app load_changes].
  destruct (filtered_out ff (new_path c)); [apply IH |].
  destruct (deleted_file c); [apply IH |].
  unfold bind, print, emit. cbv beta iota.
  destruct (fetch_raw_file w g pid (new_path c) (format_opt sb) _) as [[full | e] tr1];
    [apply IH | reflexivity].
Qed.

(** X18: the context of two runs of units put end to end is the context of
    the first, a line feed, and the context of the second; with no unit the
    context is empty and with one it is the body of that unit. *)
Theorem format_app (us vs : list Document) :
  us <> [] -> vs <> [] ->
  format_documents_for_context (us ++ vs) =
  format_documents_for_context us ++ nl ++ format_documents_for_context vs.
Proof.
  unfold format_documents_for_context.
  destruct us as [|u us]; [congruence |]. destruct vs as [|v vs]; [congruence |].
  intros _ _. cbn [app map join]. rewrite map_app, flat_map_app.
  cbn [map flat_map]. now rewrite <- !app_assoc.
Qed.

Lemma format_app_witness :
  format_documents_for_context
    ([ {| page_content := lit "a"; metadata_source := lit "x" |} ] ++
     [ {| page_content := lit "b"; metadata_source := lit "y" |} ]) =
  format_documents_for_context [ {| page_content := lit "a"; metadata_source := lit "x" |} ] ++
  nl ++
  format_documents_for_context [ {| page_content := lit "b"; metadata_source := lit "y" |} ].
Proof.
  refine (format_app [ {| page_content := lit "a"; metadata_source := lit "x" |} ]
                     [ {| page_content := lit "b"; metadata_source := lit "y" |} ] _ _);
    discriminate.
Defined.

Lemma Forall2_Forall_r {A B} (R : A -> B -> Prop) (P : B -> Prop) (l : list A) (l' : list B) :
  (forall a b, R a b -> P b) -> Forall2 R l l' -> Forall P l'.
Proof.
  intros H. induction 1; constructor; eauto.
Qed.

(** X19: when the payload names no source branch, the assembler does not
    fail: it asks for every retained file at the ref "None". *)
Theorem missing_branch_ref (w : World) (g pid mr : str) (ff : option (list str))
        (tr tr1 tr' : list event) (d : MRData) (docs : list Document) :
  fetch_mr_changes w g pid mr tr = (Ok d, tr1) ->
  source_branch d = None ->
  load_merge_request_data w g pid mr ff tr = (Ok docs, tr') ->
  exists evs,
    tr' = tr1 ++ evs /\
    List.length (requested_urls evs) = List.length docs /\
    Forall (fun url => endswith url (lit "/raw?ref=None") = true) (requested_urls evs).
Proof.
  intros Hfetch Hb Hload.
  destruct (fetch_mr_changes_quoted _ _ _ _ _ _ _ Hfetch) as [sid Hq].
  pose proof (Pipeline.load_units w g pid mr ff tr tr1 d sid Hfetch Hq docs tr' Hload) as HU.
  rewrite (load_after_fetch w g pid mr ff tr tr1 d Hfetch) in Hload.
  destruct (load_changes_requests w g pid sid (source_branch d) ff Hq _ _ _ _ _ Hload)
    as (evs0 & Htr & HF).
  eexists (_ :: evs0). split; [rewrite Htr, <- app_assoc; reflexivity |].
  cbn [requested_urls flat_map app]. fold (requested_urls evs0).
  split; [rewrite <- (Forall2_length HF); exact (Forall2_length HU) |].
  rewrite Hb in HF. revert HF. apply Forall2_Forall_r.
  intros c url (sp & _ & Hurl).
  apply endswith_spec. subst url. unfold raw_file_url. cbn [format_opt].
  exists (rstrip g (lit "/") ++ lit "/api/v4/projects/" ++ sid ++
          lit "/repository/files/" ++ sp).
  change (lit "/raw?ref=None") with (lit "/raw?ref=" ++ lit "None").
  now rewrite <- !app_assoc.
Qed.

Lemma missing_branch_ref_witness :
  exists evs,
    Forall (fun url => endswith url (lit "/raw?ref=None") = true) (requested_urls evs) /\
    List.length (requested_urls evs) = 1.
Proof.
  pose (d := {| source_branch := None;
                changes_field := Some [ {| new_path := lit "a.py"; deleted_file := false;
                                           diff := [] |} ] |}).
  pose (w := {| private_token := lit "glpat-secret";
                http := fun _ _ _ =>
                          Replied {| status_code := 200; text := lit "x = 1"; json := Some d |};
                chain_invoke := fun _ _ => inl [] |}).
  destruct (missing_branch_ref w (lit "https://gitlab.example.com") (lit "7") (lit "3") None []
              (snd (fetch_mr_changes w (lit "https://gitlab.example.com") (lit "7") (lit "3") []))
              (snd (load_merge_request_data w (lit "https://gitlab.example.com") (lit "7")
                      (lit "3") None []))
              d
              [ {| page_content := combined_content (lit "a.py") [] (lit "x = 1");
                   metadata_source := lit "a.py" |} ])
    as (evs & _ & Hlen & HF).
  - vm_compute. reflexivity.
  - reflexivity.
  - vm_compute. reflexivity.
  - exists evs. split; [exact HF | exact Hlen].
Defined.

(** X20: under a filter that holds the empty suffix, every change that is
    not deleted is retained, whatever its path: every path ends with the
    empty text. *)
Theorem empty_suffix_retains_all (exts : list str) (c : Change) :
  In [] exts -> retained (Some exts) c = negb (deleted_file c).
Proof.
  intros Hin. unfold retained. destruct exts as [|e exts]; [destruct Hin |].
  assert (H : existsb (endswith (new_path c)) (e :: exts) = true).
  { apply existsb_exists. exists []. split; [exact Hin |].
    apply endswith_spec. exists (new_path c). now rewrite app_nil_r. }
  rewrite H. apply andb_true_r.
Qed.

Lemma empty_suffix_retains_all_witness :
  retained (Some [lit ".py"; []])
           {| new_path := lit "README.md"; deleted_file := false; diff := [] |} = true.
Proof.
  refine (empty_suffix_retains_all [lit ".py"; []]
            {| new_path := lit "README.md"; deleted_file := false; diff := [] |} _).
  right. left. reflexivity.
Defined.




End RunFacts.
